(** * usgs_quakes_mm: the spatial filter of the USGS earthquake fetcher

    A shallow embedding of [src/usgs_quakes_mm.py]: the three containment
    predicates ([point_in_ring], [point_in_polygon],
    [point_in_multipolygon]) and [main] (boundary loading, bounding box,
    paginated fetch, spatial filtering and the summary counts), first on
    the boundary as GeoJSON shapes it, then, in module [Json], on the
    decoded documents as [main] reads them, unchecked.

    Python raises; the embedding returns [result], whose [Raise] carries
    the exception.  Python's numbers are kept abstract: the code only
    compares, adds, subtracts, multiplies and divides them, so every
    definition is written over a structure [Arith] that supplies exactly
    these operations, and the properties name the laws of arithmetic
    they rest on.  [FloatArith] is the instance for Python's [float]
    (IEEE binary64), and the laws are proved of it. *)

From Stdlib Require Import String.
From Stdlib Require Import List Bool Arith ZArith Lia.
From Stdlib Require Import PrimFloat SpecFloat FloatOps FloatAxioms.
Import ListNotations.

(** ** Exceptions and results *)

Inductive exn : Type :=
| SystemExit (msg : string)      (* raise SystemExit(msg) *)
| ValueError                     (* min()/max() of an empty sequence *)
| ZeroDivisionError              (* a / b with b == 0 *)
| IndexError                     (* ring[i] out of range *)
| AttributeError                 (* None.get(...) *)
| TypeError.                     (* a None where a list is iterated *)

Inductive result (A : Type) : Type :=
| Ok (a : A)
| Raise (e : exn).

Arguments Ok {A} a.
Arguments Raise {A} e.

Definition bind {A B : Type} (m : result A) (k : A -> result B) : result B :=
  match m with
  | Ok a => k a
  | Raise e => Raise e
  end.

Notation "x <- m ;; k" := (bind m (fun x => k))
  (at level 61, m at next level, right associativity).

(** A [for] loop whose body may raise: the state is threaded through the
    items from left to right and the first exception ends the loop. *)
Fixpoint for_each {A S : Type} (body : S -> A -> result S) (items : list A)
  (s : S) : result S :=
  match items with
  | [] => Ok s
  | item :: rest => s' <- body s item ;; for_each body rest s'
  end.

(** ** Numbers *)

Record Arith : Type := {
  num :> Type;
  gt : num -> num -> bool;        (* a > b *)
  lt : num -> num -> bool;        (* a < b *)
  add : num -> num -> num;        (* a + b *)
  sub : num -> num -> num;        (* a - b *)
  mul : num -> num -> num;        (* a * b *)
  quot : num -> num -> num;       (* a / b when b is not zero *)
  is_zero : num -> bool           (* b == 0 *)
}.

(** True division: Python raises [ZeroDivisionError] on a zero divisor. *)
Definition truediv (N : Arith) (a b : N) : result N :=
  if is_zero N b then Raise ZeroDivisionError else Ok (quot N a b).

(** Python's [float]: IEEE binary64, round to nearest even. *)
Definition FloatArith : Arith := {|
  num := float;
  gt := fun a b => PrimFloat.ltb b a;
  lt := PrimFloat.ltb;
  add := PrimFloat.add;
  sub := PrimFloat.sub;
  mul := PrimFloat.mul;
  quot := PrimFloat.div;
  is_zero := fun b => PrimFloat.eqb b PrimFloat.zero
|}.

Canonical Structure FloatArith.

(** ** Data model

    Values are typed as the GeoJSON the program reads is shaped: a vertex
    is a pair [[lon, lat]], a ring a list of vertices, a polygon a list
    of rings, and the coordinates of a fetched event a list of numbers
    of any length. *)

(** What [d.get(key)] finds: no such key, a JSON [null], or a value. *)
Inductive field (A : Type) : Type :=
| Absent
| Null
| Value (a : A).

Arguments Absent {A}.
Arguments Null {A}.
Arguments Value {A} a.

Section Geometry.

Variable N : Arith.

Definition Coordinate : Type := (N * N)%type.
Definition Ring : Type := list Coordinate.
Definition Polygon : Type := list Ring.
Definition PolygonSet : Type := list Polygon.

(** ** point_in_ring *)

(** One iteration of the loop over [range(n)]. *)
Definition ring_step (x y : N) (ring : Ring) (n : nat) (inside : bool)
  (i : nat) : result bool :=
  match nth_error ring i with
  | None => Raise IndexError
  | Some (x1, y1) =>
    match nth_error ring ((i + 1) mod n) with
    | None => Raise IndexError
    | Some (x2, y2) =>
      if negb (Bool.eqb (gt N y1 y) (gt N y2 y)) then
        q <- truediv N (mul N (sub N x2 x1) (sub N y y1)) (sub N y2 y1) ;;
        let xinters := add N q x1 in
        if lt N x xinters then Ok (negb inside) else Ok inside
      else Ok inside
    end
  end.

Definition point_in_ring (x y : N) (ring : Ring) : result bool :=
  let inside := false in
  let n := length ring in
  if n <? 3 then Ok false
  else for_each (ring_step x y ring n) (seq 0 n) inside.

(** ** point_in_polygon *)

(** The loop over the holes [poly[1:]]: the first hole that contains the
    point ends the function with [False]. *)
Fixpoint holes_loop (x y : N) (holes : list Ring) : result bool :=
  match holes with
  | [] => Ok true
  | hole :: rest =>
    b <- point_in_ring x y hole ;;
    if b then Ok false else holes_loop x y rest
  end.

Definition point_in_polygon (x y : N) (poly : Polygon) : result bool :=
  match poly with
  | [] => Ok false                                   (* not poly *)
  | exterior :: holes =>
    b <- point_in_ring x y exterior ;;
    if negb b then Ok false else holes_loop x y holes
  end.

(** ** point_in_multipolygon *)

(** [any] over the generator: polygons are tested in order and the first
    [True] ends the iteration. *)
Fixpoint point_in_multipolygon (x y : N) (multipoly : PolygonSet)
  : result bool :=
  match multipoly with
  | [] => Ok false
  | poly :: rest =>
    b <- point_in_polygon x y poly ;;
    if b then Ok true else point_in_multipolygon x y rest
  end.

(** ** main, step 1: the admin boundary *)

(** A GeoJSON geometry is an object tagged by its [type]; the loader
    reads the coordinates of two of the tags only.  A feature without a
    geometry is read as an object without [type] ([feat.get('geometry',
    {})]), which is [GeomOther] as well.  The features of a boundary are
    located: their geometry is an object, never a JSON [null]. *)
Inductive Geometry : Type :=
| GeomPolygon (coords : Polygon)             (* type == 'Polygon' *)
| GeomMultiPolygon (coords : list Polygon)   (* type == 'MultiPolygon' *)
| GeomOther.                                 (* any other type, or none *)

Record AdminFeature : Type := { admin_geometry : Geometry }.
Record AdminDoc : Type := { admin_features : list AdminFeature }.

Definition no_polygon_msg : string :=
  "No polygon geometry found in admin0.json"%string.

(** The body of [for feat in data.get('features', [])]. *)
Definition load_feature (polygons : PolygonSet) (feat : AdminFeature)
  : PolygonSet :=
  match admin_geometry feat with
  | GeomPolygon coords => polygons ++ [coords]       (* append *)
  | GeomMultiPolygon coords => polygons ++ coords    (* extend *)
  | GeomOther => polygons
  end.

Definition load_polygons (data : AdminDoc) : result PolygonSet :=
  let polygons := fold_left load_feature (admin_features data) [] in
  match polygons with
  | [] => Raise (SystemExit no_polygon_msg)          (* not polygons *)
  | _ :: _ => Ok polygons
  end.

(** ** main, step 2: the bounding box *)

(** [min(iterable)] and [max(iterable)] are one loop: the first item is
    the candidate, and a later item replaces it when [item < candidate]
    (for [min]) or [item > candidate] (for [max]).  With no item at all
    both raise [ValueError]. *)
Fixpoint min_max_loop (op : N -> N -> bool) (best : N) (items : list N) : N :=
  match items with
  | [] => best
  | item :: rest => min_max_loop op (if op item best then item else best) rest
  end.

Definition min_max (op : N -> N -> bool) (items : list N) : result N :=
  match items with
  | [] => Raise ValueError
  | first :: rest => Ok (min_max_loop op first rest)
  end.

Definition py_min (items : list N) : result N := min_max (lt N) items.
Definition py_max (items : list N) : result N := min_max (gt N) items.

Record BBox : Type := {
  min_lon : N;
  max_lon : N;
  min_lat : N;
  max_lat : N
}.

(** [[pt for poly in polygons for ring in poly for pt in ring]] *)
Definition all_pts (polygons : PolygonSet) : list Coordinate :=
  flat_map (fun poly => flat_map (fun ring => ring) poly) polygons.

Definition bounding_box (polygons : PolygonSet) : result BBox :=
  let pts := all_pts polygons in
  lo_x <- py_min (map fst pts) ;;
  hi_x <- py_max (map fst pts) ;;
  lo_y <- py_min (map snd pts) ;;
  hi_y <- py_max (map snd pts) ;;
  Ok {| min_lon := lo_x; max_lon := hi_x; min_lat := lo_y; max_lat := hi_y |}.

(** Steps 1 and 2 together: what [main] has computed before it fetches. *)
Definition load_boundary (data : AdminDoc) : result (PolygonSet * BBox) :=
  polygons <- load_polygons data ;;
  bbox <- bounding_box polygons ;;
  Ok (polygons, bbox).

(** ** main, steps 4 and 5: spatial filtering and the summary *)

Variable Payload : Type.

(** A feature of the fetched collection.  Only [geometry.coordinates] is
    read; everything else the record carries is [payload]. *)
Record QuakeGeometry : Type := { coordinates : field (list N) }.

Record Feature : Type := {
  geometry : field QuakeGeometry;
  payload : Payload
}.

(** [(f.get('geometry') or {}).get('coordinates') or []] *)
Definition feature_coords (f : Feature) : list N :=
  match geometry f with
  | Value g =>
    match coordinates g with
    | Value c => c
    | Absent | Null => []
    end
  | Absent | Null => []
  end.

(** The body of [for f in all_features]. *)
Definition filter_step (polygons : PolygonSet) (filtered : list Feature)
  (f : Feature) : result (list Feature) :=
  let coords := feature_coords f in
  if 2 <=? length coords then
    match nth_error coords 0, nth_error coords 1 with
    | Some c0, Some c1 =>
      b <- point_in_multipolygon c0 c1 polygons ;;
      if b then Ok (filtered ++ [f]) else Ok filtered
    | _, _ => Raise IndexError
    end
  else Ok filtered.

Record Metadata : Type := { count : nat; bboxCount : nat }.

Record OutData : Type := { metadata : Metadata; features : list Feature }.

Definition filter_pipeline (polygons : PolygonSet)
  (all_features : list Feature) : result OutData :=
  filtered <- for_each (filter_step polygons) all_features [] ;;
  Ok {| metadata := {| count := length filtered;
                       bboxCount := length all_features |};
        features := filtered |}.

(** [main] with the fetch of step 3 taken as a function of the bounding
    box. *)
Definition main (fetch : BBox -> list Feature) (data : AdminDoc)
  : result OutData :=
  pb <- load_boundary data ;;
  let (polygons, bbox) := pb in
  filter_pipeline polygons (fetch bbox).

(** ** main, step 3: the paginated fetch *)

Definition limit : nat := 20000.

(** The [while True] loop.  [page offset] is [batch_data.get('features')]
    of the answer to the request made with that [offset] (the other
    parameters do not change from one request to the next): the list
    under the key, or [None] when the answer has no such key, which
    [.get('features', [])] reads as an empty batch.  The state is
    [offset] and [all_features]; [requested] records, in order, the
    offsets of the requests made.  The loop has no bound of its own, so
    the embedding counts iterations down from [fuel] and returns [None]
    when they run out. *)
Fixpoint fetch_loop (fuel : nat) (page : nat -> option (list Feature))
  (offset : nat) (all_features : list Feature) (requested : list nat)
  : option (list Feature * list nat) :=
  match fuel with
  | 0 => None
  | S fuel' =>
    let batch := match page offset with Some b => b | None => [] end in
    let all_features := all_features ++ batch in        (* extend *)
    let requested := requested ++ [offset] in
    if length batch <? limit then Some (all_features, requested)   (* break *)
    else fetch_loop fuel' page (offset + limit) all_features requested
  end.

(** [limit = 20000; offset = 1; all_features = []] *)
Definition fetch_all (fuel : nat) (page : nat -> option (list Feature))
  : option (list Feature * list nat) :=
  fetch_loop fuel page 1 [] [].

(** ** How a run of main ends

    A run that ends leaves the offsets it requested and either the
    exception that ended it or [out_data], which it has written. *)
Inductive Failure : Type :=
| FileNotFoundError              (* admin0.json not found *)
| Raised (e : exn).

Inductive Outcome : Type :=
| Failed (f : Failure)
| Written (out_data : OutData).

Record Run : Type := { requests : list nat; outcome : Outcome }.

(** ** Words for the fetch loop *)

(** [batch_data.get('features', [])] of the answer at [offset]. *)
Definition page_batch (page : nat -> option (list Feature)) (offset : nat)
  : list Feature :=
  match page offset with
  | Some batch => batch
  | None => []
  end.

(** The offsets of the first [n] requests: 1, 20001, 40001, ... *)
Definition request_offsets (n : nat) : list nat :=
  map (fun i => 1 + i * limit) (seq 0 n).

(** A service that holds a catalogue of events in time order and answers
    a request with the events from position [offset] (counted from 1)
    on, [limit] of them at most. *)
Definition catalogue_page (events : list Feature) (offset : nat)
  : option (list Feature) :=
  Some (firstn limit (skipn (offset - 1) events)).

(** ** The even-odd rule, as the specification words it *)

Definition Edge : Type := (Coordinate * Coordinate)%type.

(** The edges [(ring[i], ring[(i+1) mod n])], for [i] from [0] to [n-1]. *)
Definition ring_edges (ring : Ring) : list Edge :=
  match ring with
  | [] => []
  | v0 :: _ =>
    map (fun i => (nth i ring v0, nth ((i + 1) mod length ring) ring v0))
        (seq 0 (length ring))
  end.

(** [(y1 > y) != (y2 > y)] *)
Definition straddles (y : N) (e : Edge) : bool :=
  let '((_, y1), (_, y2)) := e in
  negb (Bool.eqb (gt N y1 y) (gt N y2 y)).

(** [x1 + (x2-x1)*(y-y1)/(y2-y1)] *)
Definition x_intercept (y : N) (e : Edge) : N :=
  let '((x1, y1), (x2, y2)) := e in
  add N x1 (quot N (mul N (sub N x2 x1) (sub N y y1)) (sub N y2 y1)).

Definition toggles (x y : N) (e : Edge) : bool :=
  straddles y e && lt N x (x_intercept y e).

Definition even_odd (x y : N) (ring : Ring) : bool :=
  fold_left (fun parity e => if toggles x y e then negb parity else parity)
            (ring_edges ring) false.

(** ** Reading a returned boolean *)

(** [returns_true r]: the call returned [True] (it neither returned
    [False] nor raised). *)
Definition returns_true (r : result bool) : bool :=
  match r with
  | Ok b => b
  | Raise _ => false
  end.

(** ** The polygon rule, as the specification words it *)

(** False without rings or outside ring[0]; otherwise false inside any
    ring of rings[1:]; otherwise true. *)
Definition polygon_rule (x y : N) (poly : Polygon) : bool :=
  match poly with
  | [] => false
  | exterior :: holes =>
    if negb (returns_true (point_in_ring x y exterior)) then false
    else if existsb (fun hole => returns_true (point_in_ring x y hole)) holes
         then false
         else true
  end.

(** ** Least and greatest items *)

Definition is_minimum (m : N) (items : list N) : Prop :=
  In m items /\ forall v, In v items -> lt N v m = false.

Definition is_maximum (m : N) (items : list N) : Prop :=
  In m items /\ forall v, In v items -> gt N v m = false.

(** ** The polygons one boundary feature contributes *)

Definition feature_polygons (feat : AdminFeature) : list Polygon :=
  match admin_geometry feat with
  | GeomPolygon coords => [coords]
  | GeomMultiPolygon coords => coords
  | GeomOther => []
  end.

Definition is_other (feat : AdminFeature) : bool :=
  match admin_geometry feat with
  | GeomOther => true
  | _ => false
  end.

(** ** The test of the filter loop *)

(** What the body of the loop tests, on the array it has extracted. *)
Definition kept (polygons : PolygonSet) (f : Feature) : bool :=
  match feature_coords f with
  | c0 :: c1 :: _ => returns_true (point_in_multipolygon c0 c1 polygons)
  | _ => false
  end.

(** ** The candidates the filter keeps, as the specification words it *)

(** The record has a coordinate array of at least two elements, and the
    first two are inside the polygon set.  This is read off the fields
    of the record: a record without a geometry, or with a geometry
    without coordinates, has no coordinate array. *)
Definition qualifies (polygons : PolygonSet) (f : Feature) : bool :=
  match geometry f with
  | Value g =>
    match coordinates g with
    | Value (c0 :: c1 :: _) =>
      returns_true (point_in_multipolygon c0 c1 polygons)
    | _ => false
    end
  | _ => false
  end.

(** ** Laws of arithmetic

    The laws the proofs rest on are stated here; each theorem names the
    ones it needs.  All of them hold of binary64, where gradual underflow
    makes a difference zero only between equal numbers. *)

(** A difference is zero only when the two numbers compare alike. *)
Definition sub_zero_law : Prop :=
  forall a b c : N, is_zero N (sub N a b) = true -> gt N a c = gt N b c.

Definition add_comm_law : Prop :=
  forall a b : N, add N a b = add N b a.

(** [<] and [>] are strict orders: irreflexive and transitive. *)
Definition strict_order (rel : N -> N -> bool) : Prop :=
  (forall a, rel a a = false) /\
  (forall a b c, rel a b = true -> rel b c = true -> rel a c = true).

End Geometry.

Arguments GeomPolygon {N} coords.
Arguments GeomMultiPolygon {N} coords.
Arguments GeomOther {N}.
Arguments admin_geometry {N} a.
Arguments admin_features {N} a.
Arguments min_lon {N} b.
Arguments max_lon {N} b.
Arguments min_lat {N} b.
Arguments max_lat {N} b.
Arguments coordinates {N} q.
Arguments geometry {N Payload} f.
Arguments payload {N Payload} f.
Arguments metadata {N Payload} o.
Arguments features {N Payload} o.
Arguments Failed {N Payload} f.
Arguments Written {N Payload} out_data.
Arguments requests {N Payload} r.
Arguments outcome {N Payload} r.


(** * main on the decoded JSON

    [main] reads two JSON documents and checks the shape of neither.
    The definitions above take the boundary as GeoJSON shapes it, every
    position a pair.  The ones below take it as [json.loads] may hand it
    over: a position is an array of numbers of any length, the geometry
    of a boundary feature may be [null], and so may [features] in an
    answer of the event service.  Each function is the one of the same
    name above, with the exceptions the wider input brings. *)
Module Json.
Section Decoded.

Variable N : Arith.
Variable Payload : Type.

Definition Position : Type := list N.
Definition Ring : Type := list Position.
Definition Polygon : Type := list Ring.
Definition PolygonSet : Type := list Polygon.

(** ** point_in_ring *)

(** [x1, y1 = ring[i]]: the item at [i], unpacked into two names.
    Unpacking raises [ValueError] unless the item has two elements. *)
Definition unpack (ring : Ring) (i : nat) : result (N * N) :=
  match nth_error ring i with
  | None => Raise IndexError
  | Some [a; b] => Ok (a, b)
  | Some _ => Raise ValueError
  end.

Definition ring_step (x y : N) (ring : Ring) (n : nat) (inside : bool)
  (i : nat) : result bool :=
  v1 <- unpack ring i ;;
  v2 <- unpack ring ((i + 1) mod n) ;;
  let '(x1, y1) := v1 in
  let '(x2, y2) := v2 in
  if negb (Bool.eqb (gt N y1 y) (gt N y2 y)) then
    q <- truediv N (mul N (sub N x2 x1) (sub N y y1)) (sub N y2 y1) ;;
    let xinters := add N q x1 in
    if lt N x xinters then Ok (negb inside) else Ok inside
  else Ok inside.

Definition point_in_ring (x y : N) (ring : Ring) : result bool :=
  let inside := false in
  let n := length ring in
  if n <? 3 then Ok false
  else for_each (ring_step x y ring n) (seq 0 n) inside.

(** ** point_in_polygon *)

Fixpoint holes_loop (x y : N) (holes : list Ring) : result bool :=
  match holes with
  | [] => Ok true
  | hole :: rest =>
    b <- point_in_ring x y hole ;;
    if b then Ok false else holes_loop x y rest
  end.

Definition point_in_polygon (x y : N) (poly : Polygon) : result bool :=
  match poly with
  | [] => Ok false                                   (* not poly *)
  | exterior :: holes =>
    b <- point_in_ring x y exterior ;;
    if negb b then Ok false else holes_loop x y holes
  end.

(** ** point_in_multipolygon *)

Fixpoint point_in_multipolygon (x y : N) (multipoly : PolygonSet)
  : result bool :=
  match multipoly with
  | [] => Ok false
  | poly :: rest =>
    b <- point_in_polygon x y poly ;;
    if b then Ok true else point_in_multipolygon x y rest
  end.

(** ** main, step 1: the admin boundary *)

Inductive Geometry : Type :=
| GeomPolygon (coords : Polygon)             (* type == 'Polygon' *)
| GeomMultiPolygon (coords : list Polygon)   (* type == 'MultiPolygon' *)
| GeomOther.                                 (* any other type, or none *)

(** [admin_geometry] is what [feat.get('geometry', {})] finds. *)
Record AdminFeature : Type := { admin_geometry : field Geometry }.
Record AdminDoc : Type := { admin_features : list AdminFeature }.

(** The body of [for feat in data.get('features', [])].  Without the
    key, [geom] is [{}], which has no [type]; on a [null], [geom] is
    [None] and [geom.get] raises. *)
Definition load_feature (polygons : PolygonSet) (feat : AdminFeature)
  : result PolygonSet :=
  match admin_geometry feat with
  | Null => Raise AttributeError
  | Absent => Ok polygons
  | Value (GeomPolygon coords) => Ok (polygons ++ [coords])      (* append *)
  | Value (GeomMultiPolygon coords) => Ok (polygons ++ coords)   (* extend *)
  | Value GeomOther => Ok polygons
  end.

Definition load_polygons (data : AdminDoc) : result PolygonSet :=
  polygons <- for_each load_feature (admin_features data) [] ;;
  match polygons with
  | [] => Raise (SystemExit no_polygon_msg)          (* not polygons *)
  | _ :: _ => Ok polygons
  end.

(** ** main, step 2: the bounding box *)

Definition all_pts (polygons : PolygonSet) : list Position :=
  flat_map (fun poly => flat_map (fun ring => ring) poly) polygons.

(** [pt[k]] *)
Definition item (k : nat) (pt : Position) : result N :=
  match nth_error pt k with
  | Some v => Ok v
  | None => Raise IndexError
  end.

(** The generator [(pt[k] for pt in all_pts)], which [min] and [max] run
    to its end. *)
Fixpoint items (k : nat) (pts : list Position) : result (list N) :=
  match pts with
  | [] => Ok []
  | pt :: rest =>
    v <- item k pt ;;
    vs <- items k rest ;;
    Ok (v :: vs)
  end.

Definition bounding_box (polygons : PolygonSet) : result (BBox N) :=
  let pts := all_pts polygons in
  xs <- items 0 pts ;;
  lo_x <- py_min N xs ;;
  xs <- items 0 pts ;;
  hi_x <- py_max N xs ;;
  ys <- items 1 pts ;;
  lo_y <- py_min N ys ;;
  ys <- items 1 pts ;;
  hi_y <- py_max N ys ;;
  Ok {| min_lon := lo_x; max_lon := hi_x; min_lat := lo_y; max_lat := hi_y |}.

Definition load_boundary (data : AdminDoc) : result (PolygonSet * BBox N) :=
  polygons <- load_polygons data ;;
  bbox <- bounding_box polygons ;;
  Ok (polygons, bbox).

(** ** main, step 3: the paginated fetch *)

(** [page offset] is what [batch_data.get('features', [])] finds in the
    answer to the request made with that [offset].  On a [null],
    [all_features.extend(None)] raises [TypeError]: the request has been
    made by then. *)
Fixpoint fetch_loop (fuel : nat)
  (page : nat -> field (list (Feature N Payload)))
  (offset : nat) (all_features : list (Feature N Payload))
  (requested : list nat)
  : option (list nat * result (list (Feature N Payload))) :=
  match fuel with
  | 0 => None
  | S fuel' =>
    let requested := requested ++ [offset] in
    match page offset with
    | Null => Some (requested, Raise TypeError)
    | answer =>
      let batch := match answer with Value batch => batch | _ => [] end in
      let all_features := all_features ++ batch in          (* extend *)
      if length batch <? limit then Some (requested, Ok all_features)
      else fetch_loop fuel' page (offset + limit) all_features requested
    end
  end.

Definition fetch_all (fuel : nat)
  (page : nat -> field (list (Feature N Payload)))
  : option (list nat * result (list (Feature N Payload))) :=
  fetch_loop fuel page 1 [] [].

(** ** main, steps 4 and 5: spatial filtering and the summary *)

Definition filter_step (polygons : PolygonSet)
  (filtered : list (Feature N Payload)) (f : Feature N Payload)
  : result (list (Feature N Payload)) :=
  let coords := feature_coords N Payload f in
  if 2 <=? length coords then
    match nth_error coords 0, nth_error coords 1 with
    | Some c0, Some c1 =>
      b <- point_in_multipolygon c0 c1 polygons ;;
      if b then Ok (filtered ++ [f]) else Ok filtered
    | _, _ => Raise IndexError
    end
  else Ok filtered.

Definition filter_pipeline (polygons : PolygonSet)
  (all_features : list (Feature N Payload)) : result (OutData N Payload) :=
  filtered <- for_each (filter_step polygons) all_features [] ;;
  Ok {| metadata := {| count := length filtered;
                       bboxCount := length all_features |};
        features := filtered |}.

(** ** main, from the first line to the last

    [admin] is the decoded [admin0.json], or [None] when the file does
    not exist; [service bbox offset] is the event service queried with
    the bounding box and an offset.  A file that is not JSON, a document
    of another shape than the types above allow, and a request that is
    not answered are not part of this model. *)
Definition main_run (fuel : nat) (admin : option AdminDoc)
  (service : BBox N -> nat -> field (list (Feature N Payload)))
  : option (Run N Payload) :=
  match admin with
  | None => Some {| requests := []; outcome := Failed FileNotFoundError |}
  | Some data =>
    match load_boundary data with
    | Raise e => Some {| requests := []; outcome := Failed (Raised e) |}
    | Ok (polygons, bbox) =>
      match fetch_all fuel (service bbox) with
      | None => None
      | Some (requested, Raise e) =>
        Some {| requests := requested; outcome := Failed (Raised e) |}
      | Some (requested, Ok all_features) =>
        Some {| requests := requested;
                outcome :=
                  match filter_pipeline polygons all_features with
                  | Ok out_data => Written out_data
                  | Raise e => Failed (Raised e)
                  end |}
      end
    end
  end.

(** ** Words for the properties *)

(** Every position of the boundary is a pair [[lon, lat]]. *)
Definition pairs_only (polygons : PolygonSet) : Prop :=
  forall poly ring pos,
    In poly polygons -> In ring poly -> In pos ring -> length pos = 2.

(** The record has a coordinate array of at least two elements, and the
    first two are inside the polygon set. *)
Definition qualifies (polygons : PolygonSet) (f : Feature N Payload) : bool :=
  match geometry f with
  | Value g =>
    match coordinates g with
    | Value (c0 :: c1 :: _) =>
      returns_true (point_in_multipolygon c0 c1 polygons)
    | _ => false
    end
  | _ => false
  end.

(** The answer of a service that holds a catalogue of events in time
    order: the events from position [offset] (counted from 1) on,
    [limit] of them at most, under [features]. *)
Definition catalogue_answer (events : list (Feature N Payload))
  (offset : nat) : field (list (Feature N Payload)) :=
  Value (firstn limit (skipn (offset - 1) events)).

(** The typed boundary written as JSON, and read back. *)
Definition encode_ring (ring : list (Coordinate N)) : Ring :=
  map (fun v => [fst v; snd v]) ring.

Definition encode (polygons : list (list (list (Coordinate N))))
  : PolygonSet :=
  map (map encode_ring) polygons.

Definition decode_ring (ring : Ring) : list (Coordinate N) :=
  flat_map (fun pos => match pos with
                       | [a; b] => [(a, b)]
                       | _ => []
                       end) ring.

Definition decode (polygons : PolygonSet)
  : list (list (list (Coordinate N))) :=
  map (map decode_ring) polygons.

End Decoded.

Arguments GeomPolygon {N} coords.
Arguments GeomMultiPolygon {N} coords.
Arguments GeomOther {N}.
Arguments admin_geometry {N} a.
Arguments admin_features {N} a.

End Json.

(** ** The shapes of the specification's examples *)

Definition square (N : Arith) (lo hi : N) : Ring N :=
  [(lo, lo); (hi, lo); (hi, hi); (lo, hi)].

(** Exterior [(0,0),(10,0),(10,10),(0,10)], hole [(4,4),(6,4),(6,6),(4,6)]. *)
Definition square_with_hole : Polygon FloatArith :=
  [square FloatArith 0%float 10%float; square FloatArith 4%float 6%float].

(** Two disjoint squares, and two overlapping ones. *)
Definition disjoint_squares : PolygonSet FloatArith :=
  [[square FloatArith 0%float 4%float]; [square FloatArith 10%float 14%float]].

Definition overlapping_squares : PolygonSet FloatArith :=
  [[square FloatArith 0%float 4%float]; [square FloatArith 2%float 6%float]].

(** Four fetched records: inside the first square (with a depth as third
    coordinate), a one-element coordinate array, a null geometry, and a
    point outside both squares. *)
Definition sample_features : list (Feature FloatArith string) :=
  [ {| geometry := Value {| coordinates := Value [2; 2; 10]%float |};
       payload := "us7000a"%string |};
    {| geometry := Value {| coordinates := Value [7]%float |};
       payload := "us7000b"%string |};
    {| geometry := Null; payload := "us7000c"%string |};
    {| geometry := Value {| coordinates := Value [20; 20]%float |};
       payload := "us7000d"%string |} ].

(** A boundary whose only geometry is a line, and one whose only polygon
    is a single ring without vertices. *)
Definition line_only : AdminDoc FloatArith :=
  {| admin_features := [ {| admin_geometry := GeomOther |} ] |}.

Definition vertexless : AdminDoc FloatArith :=
  {| admin_features := [ {| admin_geometry := GeomPolygon [[]] |} ] |}.

(** A boundary made of the two disjoint squares, as one MultiPolygon. *)
Definition two_squares : AdminDoc FloatArith :=
  {| admin_features :=
       [ {| admin_geometry := GeomMultiPolygon disjoint_squares |} ] |}.

(** A service whose first page is full and whose second page, the last,
    holds one event. *)
Definition full_then_one (offset : nat)
  : option (list (Feature FloatArith string)) :=
  if offset =? 1
  then Some (repeat {| geometry := Null; payload := "full"%string |} limit)
  else Some [ {| geometry := Null; payload := "last"%string |} ].

(** A service that sends a full page whatever it is asked. *)
Definition always_full (offset : nat)
  : option (list (Feature FloatArith string)) :=
  Some (repeat {| geometry := Null; payload := "full"%string |} limit).

(** The first square as decoded JSON, its positions carrying an
    elevation; a boundary with it, and the same without the elevation. *)
Definition square_3d : Json.Ring FloatArith :=
  [[0; 0; 100]; [4; 0; 100]; [4; 4; 100]; [0; 4; 100]]%float.

Definition boundary_3d : Json.AdminDoc FloatArith :=
  {| Json.admin_features :=
       [ {| Json.admin_geometry := Value (Json.GeomPolygon [square_3d]) |} ] |}.

Definition boundary_2d : Json.AdminDoc FloatArith :=
  {| Json.admin_features :=
       [ {| Json.admin_geometry :=
              Value (Json.GeomMultiPolygon
                       (Json.encode FloatArith disjoint_squares)) |} ] |}.

(** A boundary with an unlocated feature ([geometry: null]) after its
    polygon, and one whose ring has a position of one number. *)
Definition boundary_unlocated : Json.AdminDoc FloatArith :=
  {| Json.admin_features :=
       [ {| Json.admin_geometry :=
              Value (Json.GeomPolygon
                       [Json.encode_ring FloatArith
                          (square FloatArith 0%float 4%float)]) |};
         {| Json.admin_geometry := Null |} ] |}.

Definition boundary_short_position : Json.AdminDoc FloatArith :=
  {| Json.admin_features :=
       [ {| Json.admin_geometry :=
              Value (Json.GeomPolygon
                       [[[0; 0]; [4; 0]; [4]; [0; 4]]%float]) |} ] |}.

(** A service that answers with the four records, and one that answers
    with [features: null]. *)
Definition sample_service (bbox : BBox FloatArith) (offset : nat)
  : field (list (Feature FloatArith string)) :=
  Json.catalogue_answer FloatArith string sample_features offset.

Definition null_service (bbox : BBox FloatArith) (offset : nat)
  : field (list (Feature FloatArith string)) :=
  Null.

(** * Properties *)

(** ** Generic facts about [result] and loops *)

(** A loop whose body never raises is a left fold. *)
Lemma for_each_pure {A S : Type} (body : S -> A -> result S)
  (f : S -> A -> S) (items : list A) :
  (forall s a, In a items -> body s a = Ok (f s a)) ->
  forall s, for_each body items s = Ok (fold_left f items s).
Proof.
  induction items as [|a items IH]; intros Hbody s; simpl; [reflexivity|].
  rewrite Hbody by (left; reflexivity). simpl.
  apply IH. intros s' a' Hin. apply Hbody. right; exact Hin.
Qed.

Lemma fold_left_mapped {A B S : Type} (f : S -> B -> S) (g : A -> B)
  (items : list A) (s : S) :
  fold_left f (map g items) s = fold_left (fun s a => f s (g a)) items s.
Proof.
  revert s. induction items as [|a items IH]; intros s; simpl;
    [reflexivity | apply IH].
Qed.

Section RayCasting.

Variable N : Arith.

Lemma straddles_distinct (y x1 y1 x2 y2 : N) :
  straddles N y ((x1, y1), (x2, y2)) = true -> y1 <> y2.
Proof.
  unfold straddles. intros H Heq. subst y2.
  rewrite Bool.eqb_reflx in H. discriminate.
Qed.

Lemma straddles_divisor (y x1 y1 x2 y2 : N) :
  sub_zero_law N ->
  straddles N y ((x1, y1), (x2, y2)) = true ->
  is_zero N (sub N y2 y1) = false.
Proof.
  intros Hlaw H. destruct (is_zero N (sub N y2 y1)) eqn:Hz; [|reflexivity].
  apply (Hlaw y2 y1 y) in Hz. unfold straddles in H.
  rewrite Hz, Bool.eqb_reflx in H. discriminate.
Qed.

(** One iteration, when both indices are in range. *)
Lemma ring_step_edge (x y : N) (ring : Ring N) (n i : nat) (inside : bool)
  (p1 p2 : Coordinate N) :
  nth_error ring i = Some p1 ->
  nth_error ring ((i + 1) mod n) = Some p2 ->
  ring_step N x y ring n inside i =
    if straddles N y (p1, p2) then
      q <- truediv N (mul N (sub N (fst p2) (fst p1)) (sub N y (snd p1)))
                     (sub N (snd p2) (snd p1)) ;;
      Ok (if lt N x (add N q (fst p1)) then negb inside else inside)
    else Ok inside.
Proof.
  intros H1 H2. unfold ring_step. rewrite H1.
  destruct p1 as [x1 y1]. rewrite H2. destruct p2 as [x2 y2]. simpl.
  destruct (negb (Bool.eqb (gt N y1 y) (gt N y2 y))); [|reflexivity].
  destruct (truediv N _ _); simpl; [|reflexivity].
  destruct (lt N x _); reflexivity.
Qed.

(** Under [sub_zero_law] the division of a straddling edge succeeds. *)
Lemma ring_step_returns (x y : N) (ring : Ring N) (n i : nat) (inside : bool)
  (p1 p2 : Coordinate N) :
  sub_zero_law N ->
  nth_error ring i = Some p1 ->
  nth_error ring ((i + 1) mod n) = Some p2 ->
  exists b, ring_step N x y ring n inside i = Ok b.
Proof.
  intros Hsub H1 H2. rewrite (ring_step_edge x y ring n i inside p1 p2 H1 H2).
  destruct p1 as [x1 y1], p2 as [x2 y2].
  pose proof (straddles_divisor y x1 y1 x2 y2 Hsub) as Hdiv.
  unfold truediv. simpl in *.
  destruct (negb (Bool.eqb (gt N y1 y) (gt N y2 y))); [|eexists; reflexivity].
  rewrite Hdiv by reflexivity. simpl. eexists; reflexivity.
Qed.

Lemma ring_step_toggles (x y : N) (ring : Ring N) (n i : nat) (inside : bool)
  (p1 p2 : Coordinate N) :
  sub_zero_law N -> add_comm_law N ->
  nth_error ring i = Some p1 ->
  nth_error ring ((i + 1) mod n) = Some p2 ->
  ring_step N x y ring n inside i =
    Ok (if toggles N x y (p1, p2) then negb inside else inside).
Proof.
  intros Hsub Hadd H1 H2. rewrite (ring_step_edge x y ring n i inside p1 p2 H1 H2).
  unfold toggles. destruct p1 as [x1 y1], p2 as [x2 y2].
  pose proof (straddles_divisor y x1 y1 x2 y2 Hsub) as Hdiv.
  unfold x_intercept, truediv. simpl in *.
  destruct (negb (Bool.eqb (gt N y1 y) (gt N y2 y))); [|reflexivity].
  rewrite Hdiv by reflexivity. simpl. rewrite Hadd. reflexivity.
Qed.

Lemma ring_indices (ring : Ring N) (i : nat) :
  i < length ring ->
  exists p1 p2,
    nth_error ring i = Some p1 /\
    nth_error ring ((i + 1) mod length ring) = Some p2.
Proof.
  intros Hi.
  destruct (nth_error ring i) as [p1|] eqn:H1;
    [|apply nth_error_None in H1; lia].
  destruct (nth_error ring ((i + 1) mod length ring)) as [p2|] eqn:H2.
  - exists p1, p2. split; reflexivity.
  - apply nth_error_None in H2.
    pose proof (Nat.mod_upper_bound (i + 1) (length ring)). lia.
Qed.

Lemma ring_edges_indices (ring : Ring N) (v0 : Coordinate N) (i : nat) :
  i < length ring ->
  nth_error ring i = Some (nth i ring v0) /\
  nth_error ring ((i + 1) mod length ring) =
    Some (nth ((i + 1) mod length ring) ring v0).
Proof.
  intros Hi. split; apply nth_error_nth'; [exact Hi|].
  apply Nat.mod_upper_bound. lia.
Qed.

(** The loop of [point_in_ring] never raises. *)
Lemma ring_loop_returns (x y : N) (ring : Ring N) :
  sub_zero_law N ->
  forall (indices : list nat) (inside : bool),
    (forall i, In i indices -> i < length ring) ->
    exists b,
      for_each (ring_step N x y ring (length ring)) indices inside = Ok b.
Proof.
  intros Hsub. induction indices as [|i indices IH]; intros inside Hin; simpl.
  - eexists; reflexivity.
  - destruct (ring_indices ring i) as (p1 & p2 & H1 & H2);
      [apply Hin; left; reflexivity|].
    destruct (ring_step_returns x y ring (length ring) i inside p1 p2 Hsub H1 H2)
      as [b Hb].
    rewrite Hb. simpl. apply IH. intros j Hj. apply Hin. right; exact Hj.
Qed.

Lemma point_in_ring_returns (x y : N) (ring : Ring N) :
  sub_zero_law N -> exists b, point_in_ring N x y ring = Ok b.
Proof.
  intros Hsub. unfold point_in_ring.
  destruct (length ring <? 3); [eexists; reflexivity|].
  apply ring_loop_returns; [exact Hsub|].
  intros i Hi. apply in_seq in Hi. lia.
Qed.

(** The loop of [point_in_ring] computes the even-odd parity. *)
Lemma ring_loop_even_odd (x y : N) (ring : Ring N) :
  sub_zero_law N -> add_comm_law N ->
  for_each (ring_step N x y ring (length ring)) (seq 0 (length ring)) false =
    Ok (even_odd N x y ring).
Proof.
  intros Hsub Hadd. unfold even_odd, ring_edges.
  destruct ring as [|v0 tl] eqn:Hring; [reflexivity|]. rewrite <- Hring.
  rewrite fold_left_mapped.
  apply for_each_pure with
    (f := fun parity i =>
            if toggles N x y
                 (nth i ring v0, nth ((i + 1) mod length ring) ring v0)
            then negb parity else parity).
  intros s i Hin. apply in_seq in Hin.
  destruct (ring_edges_indices ring v0 i) as [H1 H2]; [lia|].
  apply ring_step_toggles; assumption.
Qed.

(** The parity flag is the parity of the number of toggling edges. *)
Lemma parity_fold_odd {A : Type} (p : A -> bool) (items : list A) (b : bool) :
  fold_left (fun parity e => if p e then negb parity else parity) items b =
    xorb b (Nat.odd (length (filter p items))).
Proof.
  revert b. induction items as [|e items IH]; intros b; simpl.
  - destruct b; reflexivity.
  - rewrite IH. destruct (p e); simpl; [|reflexivity].
    rewrite Nat.odd_succ, <- Nat.negb_odd. destruct b, (Nat.odd _); reflexivity.
Qed.

End RayCasting.

(** ** The laws hold of binary64

    The primitive operations are specified by their images under
    [Prim2SF]; the work is on [spec_float]. *)

Section Binary64.

Local Open Scope Z_scope.

Lemma digits2_pos_bounds (m : positive) :
  2 ^ (Zpos (digits2_pos m) - 1) <= Zpos m < 2 ^ Zpos (digits2_pos m).
Proof.
  induction m as [m IH|m IH|]; simpl digits2_pos; [| |simpl; lia].
  all: rewrite Pos2Z.inj_succ.
  all: replace (Z.succ (Zpos (digits2_pos m)) - 1)
         with (Zpos (digits2_pos m)) by lia.
  all: rewrite Z.pow_succ_r by lia.
  all: assert (H : 2 ^ Zpos (digits2_pos m) =
                   2 * 2 ^ (Zpos (digits2_pos m) - 1))
         by (rewrite <- Z.pow_succ_r by lia; f_equal; lia).
  all: lia.
Qed.

Lemma shr_1_m (mrs : shr_record) :
  0 <= shr_m mrs -> shr_m (shr_1 mrs) = shr_m mrs / 2.
Proof.
  destruct mrs as [m r s]. simpl. intros Hm.
  destruct m as [|p|p]; [reflexivity| |lia].
  destruct p as [p|p|]; simpl.
  - rewrite Pos2Z.inj_xI. apply Z.div_unique with (r := 1); lia.
  - rewrite Pos2Z.inj_xO. apply Z.div_unique with (r := 0); lia.
  - reflexivity.
Qed.

Lemma iter_shr_1_m (n : positive) :
  forall mrs : shr_record,
    0 <= shr_m mrs ->
    shr_m (iter_pos shr_1 n mrs) = shr_m mrs / 2 ^ Zpos n.
Proof.
  induction n as [n IH|n IH|]; intros mrs Hm; simpl iter_pos.
  - assert (HA : 0 < 2 ^ Zpos n) by (apply Z.pow_pos_nonneg; lia).
    assert (H1 : 0 <= shr_m (shr_1 mrs)).
    { rewrite shr_1_m by assumption. apply Z.div_pos; lia. }
    assert (H2 : 0 <= shr_m (iter_pos shr_1 n (shr_1 mrs))).
    { rewrite IH by assumption. apply Z.div_pos; lia. }
    rewrite (IH _ H2), (IH _ H1), shr_1_m by assumption.
    rewrite !Z.div_div by lia. f_equal.
    replace (Zpos n~1) with (1 + Zpos n + Zpos n) by lia.
    rewrite !Z.pow_add_r by lia. rewrite Z.pow_1_r. ring.
  - assert (HA : 0 < 2 ^ Zpos n) by (apply Z.pow_pos_nonneg; lia).
    assert (H2 : 0 <= shr_m (iter_pos shr_1 n mrs)).
    { rewrite IH by assumption. apply Z.div_pos; lia. }
    rewrite (IH _ H2), (IH _ Hm).
    rewrite !Z.div_div by lia. f_equal.
    rewrite <- Z.pow_add_r by lia. f_equal. lia.
  - rewrite shr_1_m by assumption. reflexivity.
Qed.

(** Shifting a positive mantissa to its canonical exponent leaves it
    positive as long as the exponent is not below [emin]. *)
Lemma shr_fexp_positive (m e : Z) (l : location) :
  0 < m -> emin <= e ->
  0 < shr_m (fst (shr_fexp prec emax m e l)) /\
  emin <= snd (shr_fexp prec emax m e l).
Proof.
  intros Hm He. unfold shr_fexp, shr.
  assert (Hrec : shr_m (shr_record_of_loc m l) = m).
  { destruct l as [|[]]; reflexivity. }
  destruct m as [|p|p]; try lia. simpl Zdigits2.
  destruct (fexp prec emax (Zpos (digits2_pos p) + e) - e) as [|n|n] eqn:Hn;
    simpl fst; simpl snd; rewrite ?Hrec; try (split; lia).
  rewrite iter_shr_1_m by (rewrite Hrec; lia). rewrite Hrec.
  unfold fexp in Hn.
  pose proof (digits2_pos_bounds p) as [Hlo _].
  assert (Hshift : Zpos n = Zpos (digits2_pos p) - prec) by lia.
  split; [|lia].
  apply Z.div_str_pos. split; [apply Z.pow_pos_nonneg; lia|].
  apply Z.le_trans with (2 := Hlo).
  apply Z.pow_le_mono_r; unfold prec in *; lia.
Qed.

Lemma round_nearest_even_positive (m : Z) (l : location) :
  0 < m -> 0 < round_nearest_even m l.
Proof.
  intros Hm. unfold round_nearest_even.
  destruct l as [|[]]; try destruct (Z.even m); lia.
Qed.

Lemma binary_round_aux_not_zero (sx : bool) (m e : Z) (l : location) :
  0 < m -> emin <= e ->
  forall s, binary_round_aux prec emax sx m e l <> S754_zero s.
Proof.
  intros Hm He s. unfold binary_round_aux.
  destruct (shr_fexp_positive m e l Hm He) as [H1 H1e].
  destruct (shr_fexp prec emax m e l) as [mrs' e']. simpl in H1, H1e.
  pose proof (round_nearest_even_positive (shr_m mrs')
                (loc_of_shr_record mrs') H1) as Hr.
  destruct (shr_fexp_positive _ e' loc_Exact Hr H1e) as [H2 _].
  destruct (shr_fexp prec emax _ e' loc_Exact) as [mrs'' e'']. simpl in H2.
  destruct (shr_m mrs'') as [|p|p]; try lia.
  destruct (e'' <=? emax - prec); discriminate.
Qed.

Lemma binary_round_not_zero (sx : bool) (m : positive) (e : Z) :
  emin <= e -> forall s, binary_round prec emax sx m e <> S754_zero s.
Proof.
  intros He s. unfold binary_round.
  destruct (shl_align m e (fexp prec emax (Zpos (digits2_pos m) + e)))
    as [mz ez] eqn:Hal.
  apply binary_round_aux_not_zero; [lia|].
  unfold shl_align in Hal.
  destruct (fexp prec emax (Zpos (digits2_pos m) + e) - e) eqn:Hd;
    injection Hal as <- <-; try lia.
  unfold fexp. lia.
Qed.

Lemma binary_normalize_zero (m e : Z) (s : bool) :
  emin <= e -> binary_normalize prec emax m e false = S754_zero s -> m = 0.
Proof.
  intros He H. destruct m as [|p|p]; [reflexivity| |]; simpl in H;
    exfalso; exact (binary_round_not_zero _ p e He s H).
Qed.

Lemma digits2_pos_shift (m d : positive) :
  digits2_pos (Pos.iter xO m d) = (digits2_pos m + d)%positive.
Proof.
  induction d as [|d IH] using Pos.peano_ind.
  - simpl. lia.
  - rewrite Pos.iter_succ. simpl. rewrite IH. lia.
Qed.

Lemma canonical_emin (m : positive) (e : Z) :
  canonical_mantissa prec emax m e = true -> emin <= e.
Proof.
  unfold canonical_mantissa, fexp. intros H. apply Z.eqb_eq in H. lia.
Qed.

(** Two canonical mantissas that agree once aligned on the smaller
    exponent are the same mantissa at the same exponent. *)
Lemma aligned_canonical (mx my : positive) (ex ey : Z) :
  canonical_mantissa prec emax mx ex = true ->
  canonical_mantissa prec emax my ey = true ->
  fst (shl_align mx ex (Z.min ex ey)) = fst (shl_align my ey (Z.min ex ey)) ->
  mx = my /\ ex = ey.
Proof.
  unfold canonical_mantissa, shl_align. intros Hx Hy Heq.
  apply Z.eqb_eq in Hx, Hy.
  destruct (Z.min ex ey - ex) as [|d|d] eqn:Hdx;
    destruct (Z.min ex ey - ey) as [|d'|d'] eqn:Hdy; simpl in Heq; try lia.
  - exfalso. subst mx. rewrite digits2_pos_shift in Hx.
    rewrite Pos2Z.inj_add in Hx.
    replace (Zpos (digits2_pos my) + Zpos d' + ex)
      with (Zpos (digits2_pos my) + ey) in Hx by lia.
    lia.
  - exfalso. subst my. rewrite digits2_pos_shift in Hy.
    rewrite Pos2Z.inj_add in Hy.
    replace (Zpos (digits2_pos mx) + Zpos d + ey)
      with (Zpos (digits2_pos mx) + ex) in Hy by lia.
    lia.
Qed.

Lemma SFcompare_zero_sign (c : spec_float) (s1 s2 : bool) :
  SFcompare c (S754_zero s1) = SFcompare c (S754_zero s2).
Proof. destruct c; reflexivity. Qed.

(** A difference that is a zero is a difference of equal numbers. *)
Lemma SF64sub_zero (x y : spec_float) (s : bool) :
  valid_binary x = true -> valid_binary y = true ->
  SF64sub x y = S754_zero s ->
  forall c, SFcompare c x = SFcompare c y.
Proof.
  intros Hx Hy Hsub c.
  destruct x as [sx|sx| |sx mx ex], y as [sy|sy| |sy my ey];
    simpl in Hsub; try discriminate;
    try (destruct sx, sy; discriminate).
  - apply SFcompare_zero_sign.
  - simpl in Hx, Hy. unfold bounded in Hx, Hy.
    apply andb_true_iff in Hx, Hy. destruct Hx as [Hx _], Hy as [Hy _].
    apply binary_normalize_zero in Hsub.
    + assert (Hs : sx = sy /\
                   fst (shl_align mx ex (Z.min ex ey)) =
                   fst (shl_align my ey (Z.min ex ey))).
      { unfold cond_Zopp in Hsub.
        destruct sx, sy; split; try reflexivity; lia. }
      destruct Hs as [-> Hm].
      destruct (aligned_canonical mx my ex ey Hx Hy Hm) as [-> ->].
      reflexivity.
    + apply canonical_emin in Hx, Hy. lia.
Qed.

Lemma SF64add_comm (x y : spec_float) : SF64add x y = SF64add y x.
Proof.
  destruct x as [sx|sx| |sx mx ex], y as [sy|sy| |sy my ey]; simpl;
    try reflexivity; try (destruct sx, sy; reflexivity).
  rewrite (Z.min_comm ey ex). f_equal. apply Z.add_comm.
Qed.

Lemma SFltb_irrefl (x : spec_float) : SFltb x x = false.
Proof.
  unfold SFltb. destruct x as [s|s| |s m e]; simpl; try reflexivity.
  - destruct s; reflexivity.
  - rewrite Z.compare_refl, Pos.compare_cont_refl. destruct s; reflexivity.
Qed.

Lemma SFltb_trans (x y z : spec_float) :
  SFltb x y = true -> SFltb y z = true -> SFltb x z = true.
Proof.
  unfold SFltb.
  destruct x as [sx|sx| |sx mx ex], y as [sy|sy| |sy my ey],
           z as [sz|sz| |sz mz ez]; simpl;
    try discriminate; try reflexivity;
    try (destruct sx; discriminate); try (destruct sy; discriminate);
    try (destruct sz; discriminate);
    try (destruct sx, sy; discriminate); try (destruct sy, sz; discriminate);
    try (destruct sx, sz; (discriminate || reflexivity));
    try (destruct sx, sy, sz; (discriminate || reflexivity)).
  all: fold (Pos.compare mx my); fold (Pos.compare my mz);
       fold (Pos.compare mx mz).
  all: destruct sx, sy, sz; try discriminate; try reflexivity.
  all: destruct (Z.compare_spec ex ey), (Z.compare_spec ey ez),
         (Z.compare_spec ex ez); try discriminate; try reflexivity;
       try lia.
  all: destruct (Pos.compare_spec mx my), (Pos.compare_spec my mz),
         (Pos.compare_spec mx mz); simpl; try discriminate; try reflexivity;
       try lia.
Qed.

(** Away from NaN the order is total. *)
Lemma SFleb_of_not_ltb (x y : spec_float) :
  x <> S754_nan -> y <> S754_nan -> SFltb x y = false -> SFleb y x = true.
Proof.
  unfold SFltb, SFleb.
  destruct x as [sx|sx| |sx mx ex], y as [sy|sy| |sy my ey]; simpl;
    try congruence; intros _ _;
    try (destruct sx; (discriminate || reflexivity));
    try (destruct sy; (discriminate || reflexivity));
    try (destruct sx, sy; (discriminate || reflexivity)).
  fold (Pos.compare mx my); fold (Pos.compare my mx).
  rewrite (Z.compare_antisym ex ey), (Pos.compare_antisym mx my).
  destruct sx, sy; try (discriminate || reflexivity);
    destruct (ex ?= ey); simpl; try (discriminate || reflexivity);
    destruct (mx ?= my)%positive; simpl; (discriminate || reflexivity).
Qed.

(** Equal numbers compare alike against a third. *)
Lemma SFeqb_same_side (x y c : spec_float) :
  SFeqb x y = true -> SFcompare c x = SFcompare c y.
Proof.
  unfold SFeqb.
  destruct x as [sx|sx| |sx mx ex], y as [sy|sy| |sy my ey]; simpl;
    try discriminate;
    try (destruct sx; discriminate); try (destruct sy; discriminate).
  - intros _. apply SFcompare_zero_sign.
  - destruct sx, sy; (discriminate || reflexivity).
  - fold (Pos.compare mx my).
    destruct sx, sy; try discriminate;
      destruct (Z.compare_spec ex ey); try discriminate;
      destruct (Pos.compare_spec mx my); try discriminate;
      intros _; subst; reflexivity.
Qed.

Lemma is_nan_spec (a : float) : is_nan a = false -> Prim2SF a <> S754_nan.
Proof.
  unfold is_nan. rewrite eqb_spec. unfold SFeqb. intros H Hnan.
  rewrite Hnan in H. discriminate.
Qed.

End Binary64.

Lemma float_eqb_same_side (a b c : float) :
  PrimFloat.eqb a b = true -> PrimFloat.ltb c a = PrimFloat.ltb c b.
Proof.
  rewrite eqb_spec, !ltb_spec. intros H. unfold SFltb.
  rewrite (SFeqb_same_side _ _ (Prim2SF c) H). reflexivity.
Qed.

Lemma float_leb_of_not_ltb (a b : float) :
  is_nan a = false -> is_nan b = false ->
  PrimFloat.ltb a b = false -> PrimFloat.leb b a = true.
Proof.
  intros Ha Hb. rewrite ltb_spec, leb_spec.
  apply SFleb_of_not_ltb; apply is_nan_spec; assumption.
Qed.

Lemma Float_sub_zero_law : sub_zero_law FloatArith.
Proof.
  intros a b c. simpl.
  rewrite eqb_spec, sub_spec, !ltb_spec. unfold SFeqb, SFltb.
  replace (Prim2SF 0) with (S754_zero false) by reflexivity.
  intros Hz.
  destruct (SF64sub (Prim2SF a) (Prim2SF b)) as [s|s| |s m e] eqn:Hsub;
    simpl in Hz; try discriminate; try (destruct s; discriminate).
  rewrite (SF64sub_zero _ _ s (Prim2SF_valid a) (Prim2SF_valid b) Hsub
             (Prim2SF c)).
  reflexivity.
Qed.

Lemma Float_add_comm_law : add_comm_law FloatArith.
Proof.
  intros a b. simpl. apply Prim2SF_inj. rewrite !add_spec.
  apply SF64add_comm.
Qed.

Lemma Float_lt_strict_order : strict_order FloatArith (lt FloatArith).
Proof.
  split; simpl.
  - intros a. rewrite ltb_spec. apply SFltb_irrefl.
  - intros a b c. rewrite !ltb_spec. apply SFltb_trans.
Qed.

Lemma Float_gt_strict_order : strict_order FloatArith (gt FloatArith).
Proof.
  destruct Float_lt_strict_order as [Hirr Htrans]. split; simpl in *.
  - intros a. apply Hirr.
  - intros a b c H1 H2. exact (Htrans _ _ _ H2 H1).
Qed.

(** ** point_in_ring *)

(** The square [(0,0),(4,0),(4,4),(0,4)]: a point inside, a point
    outside, and a point on the right edge, which the strict comparisons
    leave outside. *)
Example square_inside :
  point_in_ring FloatArith 2%float 2%float (square FloatArith 0%float 4%float)
  = Ok true.
Proof. vm_compute. reflexivity. Qed.

Example square_outside :
  point_in_ring FloatArith 5%float 5%float (square FloatArith 0%float 4%float)
  = Ok false.
Proof. vm_compute. reflexivity. Qed.

Example square_on_edge :
  point_in_ring FloatArith 4%float 2%float (square FloatArith 0%float 4%float)
  = Ok false.
Proof. vm_compute. reflexivity. Qed.

Example square_edges :
  ring_edges FloatArith (square FloatArith 0%float 4%float) =
    [ ((0, 0), (4, 0)); ((4, 0), (4, 4));
      ((4, 4), (0, 4)); ((0, 4), (0, 0)) ]%float.
Proof. reflexivity. Qed.

(** C1: on a ring of at least three vertices [point_in_ring] returns the
    even-odd parity: the flag starts false, every edge
    [(ring[i], ring[(i+1) mod n])] toggles it exactly when
    [(y1 > y) != (y2 > y)] and [x < x1 + (x2-x1)*(y-y1)/(y2-y1)], and the
    final flag, the parity of the number of toggling edges, is returned. *)
Theorem point_in_ring_even_odd :
  forall (x y : float) (ring : Ring FloatArith),
    3 <= length ring ->
    point_in_ring FloatArith x y ring = Ok (even_odd FloatArith x y ring) /\
    even_odd FloatArith x y ring =
      Nat.odd (length (filter (toggles FloatArith x y)
                              (ring_edges FloatArith ring))).
Proof.
  intros x y ring Hlen. split.
  - unfold point_in_ring.
    destruct (length ring <? 3) eqn:Hlt; [apply Nat.ltb_lt in Hlt; lia|].
    apply ring_loop_even_odd;
      [exact Float_sub_zero_law | exact Float_add_comm_law].
  - unfold even_odd. rewrite parity_fold_odd. reflexivity.
Qed.

Lemma point_in_ring_even_odd_witness :
  3 <= length (square FloatArith 0%float 4%float) /\
  point_in_ring FloatArith 2%float 2%float (square FloatArith 0%float 4%float) =
    Ok (even_odd FloatArith 2%float 2%float (square FloatArith 0%float 4%float)).
Proof.
  split; [simpl; lia|].
  apply (point_in_ring_even_odd 2%float 2%float
           (square FloatArith 0%float 4%float)).
  simpl; lia.
Defined.

(** C5: a ring with fewer than three vertices contains no point. *)
Theorem point_in_ring_degenerate :
  forall (N : Arith) (x y : N) (ring : Ring N),
    length ring < 3 -> point_in_ring N x y ring = Ok false.
Proof.
  intros N x y ring Hlen. unfold point_in_ring.
  apply Nat.ltb_lt in Hlen. rewrite Hlen. reflexivity.
Qed.

Lemma point_in_ring_degenerate_witness :
  length [(1, 2); (3, 4)]%float < 3 /\
  point_in_ring FloatArith 0%float 0%float [(1, 2); (3, 4)]%float = Ok false.
Proof.
  split; [simpl; lia | apply point_in_ring_degenerate; simpl; lia].
Defined.

(** C6: the division is reached only on an edge that straddles [y]; a
    straddling edge has [y1 <> y2]; an exactly horizontal edge leaves the
    parity flag alone; and, the difference of distinct numbers not being
    zero, no call of [point_in_ring] raises [ZeroDivisionError] (nor
    anything else).  On binary64: a straddling edge has [y1 != y2] and
    [y2 - y1 != 0], and every call returns. *)
Theorem division_only_when_straddling :
  (forall N : Arith,
    (forall (x y : N) (ring : Ring N) (n i : nat) (inside : bool),
        ring_step N x y ring n inside i = Raise ZeroDivisionError ->
        exists x1 y1 x2 y2,
          nth_error ring i = Some (x1, y1) /\
          nth_error ring ((i + 1) mod n) = Some (x2, y2) /\
          straddles N y ((x1, y1), (x2, y2)) = true /\
          is_zero N (sub N y2 y1) = true) /\
    (forall y x1 y1 x2 y2 : N,
        straddles N y ((x1, y1), (x2, y2)) = true -> y1 <> y2) /\
    (forall (x y : N) (ring : Ring N) (n i : nat) (inside : bool)
            (x1 x2 y1 : N),
        nth_error ring i = Some (x1, y1) ->
        nth_error ring ((i + 1) mod n) = Some (x2, y1) ->
        ring_step N x y ring n inside i = Ok inside) /\
    (sub_zero_law N ->
     forall (x y : N) (ring : Ring N),
       exists b, point_in_ring N x y ring = Ok b)) /\
  (forall y x1 y1 x2 y2 : float,
     straddles FloatArith y ((x1, y1), (x2, y2)) = true ->
     PrimFloat.eqb y1 y2 = false /\
     PrimFloat.eqb (y2 - y1) 0 = false) /\
  (forall (x y : float) (ring : Ring FloatArith),
     exists b, point_in_ring FloatArith x y ring = Ok b).
Proof.
  split; [intros N; repeat split|split].
  - intros x y ring n i inside H. unfold ring_step in H.
    destruct (nth_error ring i) as [[x1 y1]|]; [|discriminate].
    destruct (nth_error ring ((i + 1) mod n)) as [[x2 y2]|]; [|discriminate].
    exists x1, y1, x2, y2. unfold straddles.
    destruct (negb (Bool.eqb (gt N y1 y) (gt N y2 y))); [|discriminate].
    unfold truediv in H.
    destruct (is_zero N (sub N y2 y1)); [repeat split; reflexivity|].
    simpl in H. destruct (lt N x _); discriminate.
  - intros y x1 y1 x2 y2. apply straddles_distinct.
  - intros x y ring n i inside x1 x2 y1 H1 H2.
    rewrite (ring_step_edge N x y ring n i inside (x1, y1) (x2, y1) H1 H2).
    unfold straddles. rewrite Bool.eqb_reflx. reflexivity.
  - intros Hsub x y ring. apply point_in_ring_returns. exact Hsub.
  - intros y x1 y1 x2 y2 Hs. split.
    + destruct (PrimFloat.eqb y1 y2) eqn:Heq; [|reflexivity].
      unfold straddles in Hs. simpl in Hs.
      rewrite (float_eqb_same_side y1 y2 y Heq), Bool.eqb_reflx in Hs.
      discriminate.
    + exact (straddles_divisor FloatArith y x1 y1 x2 y2
               Float_sub_zero_law Hs).
  - intros x y ring. apply point_in_ring_returns. exact Float_sub_zero_law.
Qed.

Lemma division_only_when_straddling_witness :
  straddles FloatArith 2%float ((0, 0), (4, 4))%float = true /\
  0%float <> 4%float.
Proof.
  split; [reflexivity|].
  apply (proj1 (proj2 (proj1 division_only_when_straddling FloatArith))
           2%float 0%float 0%float 4%float 4%float).
  reflexivity.
Defined.

(** ** point_in_polygon and point_in_multipolygon *)

Section Composition.

Variable N : Arith.
Hypothesis Hsub : sub_zero_law N.

Lemma point_in_ring_value (x y : N) (ring : Ring N) :
  point_in_ring N x y ring = Ok (returns_true (point_in_ring N x y ring)).
Proof.
  destruct (point_in_ring_returns N x y ring Hsub) as [b Hb].
  rewrite Hb. reflexivity.
Qed.

Lemma holes_loop_value (x y : N) (holes : list (Ring N)) :
  holes_loop N x y holes =
    Ok (negb (existsb (fun hole => returns_true (point_in_ring N x y hole))
                      holes)).
Proof.
  induction holes as [|hole rest IH]; simpl; [reflexivity|].
  rewrite (point_in_ring_value x y hole). simpl.
  destruct (returns_true (point_in_ring N x y hole)); simpl;
    [reflexivity | exact IH].
Qed.

Lemma point_in_polygon_value (x y : N) (poly : Polygon N) :
  point_in_polygon N x y poly = Ok (polygon_rule N x y poly).
Proof.
  destruct poly as [|exterior holes]; simpl; [reflexivity|].
  rewrite (point_in_ring_value x y exterior). simpl.
  destruct (returns_true (point_in_ring N x y exterior)); simpl;
    [|reflexivity].
  rewrite holes_loop_value.
  destruct (existsb _ holes); reflexivity.
Qed.

Lemma point_in_multipolygon_value (x y : N) (multipoly : PolygonSet N) :
  point_in_multipolygon N x y multipoly =
    Ok (existsb (fun poly => returns_true (point_in_polygon N x y poly))
                multipoly).
Proof.
  induction multipoly as [|poly rest IH]; simpl; [reflexivity|].
  rewrite (point_in_polygon_value x y poly). simpl.
  destruct (polygon_rule N x y poly); simpl; [reflexivity | exact IH].
Qed.

End Composition.

(** C2: [point_in_polygon] is false without rings or outside ring[0],
    otherwise false inside any of the holes rings[1:], otherwise true; on
    the square with a square hole, (5,5) is outside and (1,1) and (5,9)
    are inside. *)
Theorem point_in_polygon_rule :
  (forall (x y : float) (poly : Polygon FloatArith),
     point_in_polygon FloatArith x y poly =
       Ok (polygon_rule FloatArith x y poly)) /\
  point_in_polygon FloatArith 5%float 5%float square_with_hole = Ok false /\
  point_in_polygon FloatArith 1%float 1%float square_with_hole = Ok true /\
  point_in_polygon FloatArith 5%float 9%float square_with_hole = Ok true.
Proof.
  split.
  - intros x y poly. apply point_in_polygon_value. exact Float_sub_zero_law.
  - repeat split; vm_compute; reflexivity.
Qed.

(** C3: [point_in_multipolygon] is true exactly when [point_in_polygon]
    is true of at least one polygon of the set, and false otherwise:
    inside either of two disjoint squares gives true, inside neither
    gives false, and inside both of two overlapping squares gives true. *)
Theorem point_in_multipolygon_any :
  (forall (x y : float) (multipoly : PolygonSet FloatArith),
     point_in_multipolygon FloatArith x y multipoly =
       Ok (existsb
             (fun poly => returns_true (point_in_polygon FloatArith x y poly))
             multipoly) /\
     (point_in_multipolygon FloatArith x y multipoly = Ok true <->
      exists poly,
        In poly multipoly /\ point_in_polygon FloatArith x y poly = Ok true) /\
     (point_in_multipolygon FloatArith x y multipoly = Ok false <->
      forall poly,
        In poly multipoly -> point_in_polygon FloatArith x y poly = Ok false)) /\
  point_in_multipolygon FloatArith 2%float 2%float disjoint_squares = Ok true /\
  point_in_multipolygon FloatArith 12%float 12%float disjoint_squares = Ok true /\
  point_in_multipolygon FloatArith 7%float 7%float disjoint_squares = Ok false /\
  (point_in_polygon FloatArith 3%float 3%float
     [square FloatArith 0%float 4%float] = Ok true /\
   point_in_polygon FloatArith 3%float 3%float
     [square FloatArith 2%float 6%float] = Ok true /\
   point_in_multipolygon FloatArith 3%float 3%float overlapping_squares
     = Ok true).
Proof.
  split; [|repeat split; vm_compute; reflexivity].
  intros x y multipoly.
  pose proof (point_in_multipolygon_value FloatArith Float_sub_zero_law
                x y multipoly) as Hval.
  split; [exact Hval|]. rewrite Hval. split; split.
  - intros H. injection H as H. apply existsb_exists in H.
    destruct H as (poly & Hin & Hp). exists poly. split; [exact Hin|].
    rewrite (point_in_polygon_value FloatArith Float_sub_zero_law x y poly)
      in *.
    simpl in Hp. rewrite Hp. reflexivity.
  - intros (poly & Hin & Hp). f_equal. apply existsb_exists.
    exists poly. split; [exact Hin|]. rewrite Hp. reflexivity.
  - intros H poly Hin. injection H as H.
    rewrite (point_in_polygon_value FloatArith Float_sub_zero_law x y poly).
    f_equal.
    destruct (polygon_rule FloatArith x y poly) eqn:Hp; [|reflexivity].
    rewrite <- H. symmetry. apply existsb_exists. exists poly.
    split; [exact Hin|].
    rewrite (point_in_polygon_value FloatArith Float_sub_zero_law x y poly).
    exact Hp.
  - intros H. f_equal.
    destruct (existsb _ multipoly) eqn:He; [|reflexivity].
    apply existsb_exists in He. destruct He as (poly & Hin & Hp).
    rewrite (H poly Hin) in Hp. discriminate.
Qed.

Lemma point_in_multipolygon_any_witness :
  point_in_multipolygon FloatArith 2%float 2%float disjoint_squares = Ok true <->
  exists poly, In poly disjoint_squares /\
               point_in_polygon FloatArith 2%float 2%float poly = Ok true.
Proof.
  apply (proj1 (proj2 (proj1 point_in_multipolygon_any
                         2%float 2%float disjoint_squares))).
Defined.

(** ** The filter pipeline *)

Lemma fold_left_keep {A : Type} (p : A -> bool) (items acc : list A) :
  fold_left (fun acc a => if p a then acc ++ [a] else acc) items acc =
    acc ++ filter p items.
Proof.
  revert acc. induction items as [|a items IH]; intros acc; simpl.
  - symmetry. apply app_nil_r.
  - rewrite IH. destruct (p a); [|reflexivity].
    rewrite <- app_assoc. reflexivity.
Qed.

Section Filter.

Variable N : Arith.
Variable Payload : Type.
Hypothesis Hsub : sub_zero_law N.

Lemma filter_step_value (polygons : PolygonSet N)
  (filtered : list (Feature N Payload)) (f : Feature N Payload) :
  filter_step N Payload polygons filtered f =
    Ok (if kept N Payload polygons f then filtered ++ [f] else filtered).
Proof.
  unfold filter_step, kept.
  destruct (feature_coords N Payload f) as [|c0 [|c1 rest]]; simpl;
    try reflexivity.
  rewrite (point_in_multipolygon_value N Hsub c0 c1 polygons). simpl.
  destruct (existsb _ polygons); reflexivity.
Qed.

Lemma filter_pipeline_value (polygons : PolygonSet N)
  (all_features : list (Feature N Payload)) :
  filter_pipeline N Payload polygons all_features =
    Ok {| metadata :=
            {| count := length (filter (kept N Payload polygons) all_features);
               bboxCount := length all_features |};
          features := filter (kept N Payload polygons) all_features |}.
Proof.
  unfold filter_pipeline.
  rewrite (for_each_pure (filter_step N Payload polygons)
             (fun acc f => if kept N Payload polygons f
                           then acc ++ [f] else acc)).
  - rewrite fold_left_keep. reflexivity.
  - intros acc f _. apply filter_step_value.
Qed.

Lemma kept_short (polygons : PolygonSet N) (f : Feature N Payload) :
  length (feature_coords N Payload f) < 2 -> kept N Payload polygons f = false.
Proof.
  unfold kept. destruct (feature_coords N Payload f) as [|c0 [|c1 rest]];
    simpl; intros H; [reflexivity | reflexivity | lia].
Qed.

End Filter.

(** The test of the loop is the rule read off the record. *)
Lemma kept_qualifies (N : Arith) (Payload : Type) (polygons : PolygonSet N)
  (f : Feature N Payload) :
  kept N Payload polygons f = qualifies N Payload polygons f.
Proof.
  unfold kept, qualifies, feature_coords.
  destruct (geometry f) as [| |g]; try reflexivity.
  destruct (coordinates g) as [| |[|c0 [|c1 rest]]]; reflexivity.
Qed.

(** C4: the kept output is the input filtered, in order and record by
    record, by "the coordinate array of the record has at least two
    elements, and the first two are inside the polygon set"; a record
    whose array has fewer than two is left out and nothing is raised;
    [bboxCount] is the length of the input and [count] the length of
    the output.  Of the four sample records the two squares keep the
    first, whose array has a depth as third element. *)
Theorem filter_pipeline_keeps :
  (forall (Payload : Type) (polygons : PolygonSet FloatArith)
          (all_features : list (Feature FloatArith Payload)),
     exists out,
       filter_pipeline FloatArith Payload polygons all_features = Ok out /\
       features out =
         filter (qualifies FloatArith Payload polygons) all_features /\
       bboxCount (metadata out) = length all_features /\
       count (metadata out) = length (features out) /\
       (forall f c,
          geometry f = Value {| coordinates := Value c |} ->
          length c < 2 ->
          ~ In f (features out)) /\
       (forall f c0 c1 rest,
          geometry f = Value {| coordinates := Value (c0 :: c1 :: rest) |} ->
          (In f (features out) <->
           In f all_features /\
           point_in_multipolygon FloatArith c0 c1 polygons = Ok true))) /\
  filter_pipeline FloatArith string disjoint_squares sample_features =
    Ok {| metadata := {| count := 1; bboxCount := 4 |};
          features :=
            [ {| geometry := Value {| coordinates := Value [2; 2; 10]%float |};
                 payload := "us7000a"%string |} ] |}.
Proof.
  split; [|vm_compute; reflexivity].
  intros Payload polygons all_features.
  exists {| metadata :=
              {| count :=
                   length (filter (qualifies FloatArith Payload polygons)
                                  all_features);
                 bboxCount := length all_features |};
            features :=
              filter (qualifies FloatArith Payload polygons) all_features |}.
  split.
  { rewrite (filter_pipeline_value FloatArith Payload Float_sub_zero_law).
    rewrite (filter_ext _ _ (kept_qualifies FloatArith Payload polygons)).
    reflexivity. }
  cbn [features metadata count bboxCount].
  split; [reflexivity|]. split; [reflexivity|]. split; [reflexivity|]. split.
  - intros f c Hg Hc Hin. apply filter_In in Hin. destruct Hin as [_ Hq].
    unfold qualifies in Hq. rewrite Hg in Hq. cbn [coordinates] in Hq.
    destruct c as [|c0 [|c1 rest]]; try discriminate.
    simpl in Hc. lia.
  - intros f c0 c1 rest Hg. rewrite filter_In. unfold qualifies.
    rewrite Hg. cbn [coordinates].
    rewrite (point_in_multipolygon_value FloatArith Float_sub_zero_law
               c0 c1 polygons).
    cbn [returns_true].
    split; intros [Hin H]; (split; [exact Hin|]).
    + rewrite H. reflexivity.
    + injection H as H. exact H.
Qed.

(** C10: a record whose geometry is missing or null is left out of the
    kept output and nothing is raised, as for a record whose coordinate
    array has fewer than two elements; it still counts in [bboxCount]. *)
Theorem filter_pipeline_null_geometry :
  forall (Payload : Type) (polygons : PolygonSet FloatArith)
         (before after : list (Feature FloatArith Payload))
         (f : Feature FloatArith Payload),
    geometry f = Absent \/ geometry f = Null ->
    exists out out',
      filter_pipeline FloatArith Payload polygons (before ++ f :: after)
        = Ok out /\
      filter_pipeline FloatArith Payload polygons (before ++ after)
        = Ok out' /\
      features out = features out' /\
      count (metadata out) = count (metadata out') /\
      bboxCount (metadata out) = S (bboxCount (metadata out')) /\
      forall (g : Feature FloatArith Payload) (c : list float),
        geometry g = Value {| coordinates := Value c |} ->
        length c < 2 ->
        filter_pipeline FloatArith Payload polygons (before ++ g :: after)
          = Ok out.
Proof.
  intros Payload polygons before after f Hgeom.
  assert (Hf : kept FloatArith Payload polygons f = false).
  { apply kept_short. unfold feature_coords.
    destruct Hgeom as [-> | ->]; simpl; lia. }
  do 2 eexists.
  split; [apply filter_pipeline_value; exact Float_sub_zero_law|].
  split; [apply filter_pipeline_value; exact Float_sub_zero_law|].
  simpl. rewrite !filter_app. simpl. rewrite Hf.
  rewrite !length_app. simpl.
  split; [reflexivity|]. split; [reflexivity|]. split; [lia|].
  intros g c Hg Hc.
  assert (Hk : kept FloatArith Payload polygons g = false).
  { apply kept_short. unfold feature_coords. rewrite Hg. simpl. exact Hc. }
  rewrite (filter_pipeline_value FloatArith Payload Float_sub_zero_law).
  rewrite !filter_app. simpl. rewrite Hk. rewrite !length_app. reflexivity.
Qed.

Example sample_features_filtered :
  filter_pipeline FloatArith string disjoint_squares sample_features =
    Ok {| metadata := {| count := 1; bboxCount := 4 |};
          features := firstn 1 sample_features |}.
Proof. vm_compute. reflexivity. Qed.

Lemma filter_pipeline_keeps_witness :
  exists out,
    filter_pipeline FloatArith string disjoint_squares sample_features
      = Ok out /\
    In {| geometry := Value {| coordinates := Value [2; 2; 10]%float |};
          payload := "us7000a"%string |} (features out) /\
    ~ In {| geometry := Value {| coordinates := Value [7]%float |};
            payload := "us7000b"%string |} (features out).
Proof.
  destruct (proj1 filter_pipeline_keeps string disjoint_squares
              sample_features)
    as (out & Hout & _ & _ & _ & Hshort & Hlong).
  exists out. split; [exact Hout|]. split.
  - apply (Hlong {| geometry :=
                       Value {| coordinates := Value [2; 2; 10]%float |};
                     payload := "us7000a"%string |}
                  2%float 2%float [10%float] eq_refl).
    split; [left; reflexivity | vm_compute; reflexivity].
  - apply (Hshort {| geometry := Value {| coordinates := Value [7]%float |};
                     payload := "us7000b"%string |}
                  [7%float] eq_refl).
    simpl. lia.
Defined.

Lemma filter_pipeline_null_geometry_witness :
  (geometry {| geometry := Null; payload := "us7000c"%string |}
     = @Absent (QuakeGeometry FloatArith) \/
   geometry {| geometry := Null; payload := "us7000c"%string |}
     = @Null (QuakeGeometry FloatArith)) /\
  exists out out',
    filter_pipeline FloatArith string disjoint_squares
      (firstn 2 sample_features ++
       {| geometry := Null; payload := "us7000c"%string |} ::
       skipn 3 sample_features) = Ok out /\
    filter_pipeline FloatArith string disjoint_squares
      (firstn 2 sample_features ++ skipn 3 sample_features) = Ok out' /\
    features out = features out' /\
    count (metadata out) = count (metadata out') /\
    bboxCount (metadata out) = S (bboxCount (metadata out')).
Proof.
  split; [right; reflexivity|].
  destruct (filter_pipeline_null_geometry string
              disjoint_squares (firstn 2 sample_features)
              (skipn 3 sample_features)
              {| geometry := Null; payload := "us7000c"%string |}
              (or_intror eq_refl))
    as (out & out' & H1 & H2 & H3 & H4 & H5 & _).
  exists out, out'. repeat split; assumption.
Defined.

(** ** The boundary loader *)

Section Boundary.

Variable N : Arith.

Lemma load_features_flat_map (feats : list (AdminFeature N))
  (polygons : PolygonSet N) :
  fold_left (load_feature N) feats polygons =
    polygons ++ flat_map (feature_polygons N) feats.
Proof.
  revert polygons. induction feats as [|feat feats IH]; intros polygons; simpl.
  - symmetry. apply app_nil_r.
  - rewrite IH. destruct feat as [[coords|coords|]];
      unfold load_feature, feature_polygons; simpl;
      rewrite <- ?app_assoc; reflexivity.
Qed.

Lemma load_polygons_value (data : AdminDoc N) :
  load_polygons N data =
    match flat_map (feature_polygons N) (admin_features data) with
    | [] => Raise (SystemExit no_polygon_msg)
    | poly :: rest => Ok (poly :: rest)
    end.
Proof.
  unfold load_polygons. rewrite load_features_flat_map. simpl.
  destruct (flat_map (feature_polygons N) (admin_features data));
    reflexivity.
Qed.

Lemma flat_map_skip_other (feats : list (AdminFeature N)) :
  flat_map (feature_polygons N)
           (filter (fun feat => negb (is_other N feat)) feats) =
    flat_map (feature_polygons N) feats.
Proof.
  induction feats as [|feat feats IH]; simpl; [reflexivity|].
  destruct feat as [[coords|coords|]]; simpl; rewrite ?IH; reflexivity.
Qed.

(** Every vertex of every ring of every polygon, and nothing else. *)
Lemma in_all_pts (polygons : PolygonSet N) (pt : Coordinate N) :
  In pt (all_pts N polygons) <->
  exists poly ring, In poly polygons /\ In ring poly /\ In pt ring.
Proof.
  unfold all_pts. rewrite in_flat_map. split.
  - intros (poly & Hpoly & Hpt). apply in_flat_map in Hpt.
    destruct Hpt as (ring & Hring & Hpt). exists poly, ring. auto.
  - intros (poly & ring & Hpoly & Hring & Hpt). exists poly.
    split; [exact Hpoly|]. apply in_flat_map. exists ring. auto.
Qed.

(** The candidate of the [min]/[max] loop is never beaten by an item it
    has seen. *)
Lemma min_max_loop_extreme (op : N -> N -> bool) :
  strict_order N op ->
  forall (items : list N) (best : N),
    let m := min_max_loop N op best items in
    (m = best \/ op m best = true) /\
    (m = best \/ In m items) /\
    (forall v, In v items -> op v m = false).
Proof.
  intros [Hirr Htrans]. induction items as [|item rest IH]; intros best; simpl.
  - split; [left; reflexivity|]. split; [left; reflexivity|].
    intros v [].
  - specialize (IH (if op item best then item else best)).
    simpl in IH. destruct IH as (Hle & Hin & Hall).
    set (m := min_max_loop N op (if op item best then item else best) rest) in *.
    destruct (op item best) eqn:Hib.
    + split; [|split].
      * right. destruct Hle as [-> | Hlt]; [exact Hib|].
        exact (Htrans _ _ _ Hlt Hib).
      * destruct Hin as [-> | Hin]; right; [left; reflexivity | right; exact Hin].
      * intros v [<- | Hv]; [|apply Hall; exact Hv].
        destruct Hle as [-> | Hlt]; [apply Hirr|].
        destruct (op item m) eqn:Him; [|reflexivity].
        rewrite <- (Hirr item). symmetry. exact (Htrans _ _ _ Him Hlt).
    + split; [exact Hle|]. split.
      * destruct Hin as [-> | Hin]; [left; reflexivity | right; right; exact Hin].
      * intros v [<- | Hv]; [|apply Hall; exact Hv].
        destruct Hle as [-> | Hlt]; [exact Hib|].
        destruct (op item m) eqn:Him; [|reflexivity].
        rewrite <- Hib. symmetry. exact (Htrans _ _ _ Him Hlt).
Qed.

Lemma min_max_extreme (op : N -> N -> bool) (items : list N) :
  strict_order N op -> items <> [] ->
  exists m, min_max N op items = Ok m /\
            In m items /\ forall v, In v items -> op v m = false.
Proof.
  intros Hord Hne. destruct items as [|first rest]; [contradiction|].
  exists (min_max_loop N op first rest). split; [reflexivity|].
  destruct (min_max_loop_extreme op Hord rest first) as (Hle & Hin & Hall).
  destruct Hord as [Hirr Htrans]. split.
  - destruct Hin as [-> | Hin]; [left; reflexivity | right; exact Hin].
  - intros v [<- | Hv]; [|apply Hall; exact Hv].
    destruct Hle as [-> | Hlt]; [apply Hirr|].
    destruct (op first _) eqn:Hfm; [|reflexivity].
    rewrite <- (Hirr first). symmetry. exact (Htrans _ _ _ Hfm Hlt).
Qed.

(** With a vertex to start from, the four scans of [bounding_box] return
    a least and a greatest x and a least and a greatest y. *)
Lemma bounding_box_extremes (polygons : PolygonSet N) :
  strict_order N (lt N) -> strict_order N (gt N) ->
  all_pts N polygons <> [] ->
  exists bbox,
    bounding_box N polygons = Ok bbox /\
    is_minimum N (min_lon bbox) (map fst (all_pts N polygons)) /\
    is_maximum N (max_lon bbox) (map fst (all_pts N polygons)) /\
    is_minimum N (min_lat bbox) (map snd (all_pts N polygons)) /\
    is_maximum N (max_lat bbox) (map snd (all_pts N polygons)).
Proof.
  intros Hlt Hgt Hpts.
  assert (Hx : map fst (all_pts N polygons) <> []).
  { intros Hnil. apply map_eq_nil in Hnil. contradiction. }
  assert (Hy : map snd (all_pts N polygons) <> []).
  { intros Hnil. apply map_eq_nil in Hnil. contradiction. }
  destruct (min_max_extreme (lt N) _ Hlt Hx) as (lo_x & E1 & M1).
  destruct (min_max_extreme (gt N) _ Hgt Hx) as (hi_x & E2 & M2).
  destruct (min_max_extreme (lt N) _ Hlt Hy) as (lo_y & E3 & M3).
  destruct (min_max_extreme (gt N) _ Hgt Hy) as (hi_y & E4 & M4).
  exists {| min_lon := lo_x; max_lon := hi_x; min_lat := lo_y; max_lat := hi_y |}.
  split.
  - unfold bounding_box, py_min, py_max. rewrite E1, E2, E3, E4. reflexivity.
  - simpl. exact (conj M1 (conj M2 (conj M3 M4))).
Qed.

Lemma bounding_box_no_vertex (polygons : PolygonSet N) :
  all_pts N polygons = [] -> bounding_box N polygons = Raise ValueError.
Proof.
  intros Hpts. unfold bounding_box. rewrite Hpts. reflexivity.
Qed.

End Boundary.

(** C8: a Polygon feature appends its coordinates as one polygon, a
    MultiPolygon feature appends each of its polygons, a feature of any
    other type changes nothing and raises nothing; an empty polygon set
    ends the run with [SystemExit] ("No polygon geometry found") before
    anything is fetched or written. *)
Theorem boundary_loader_polygons :
  forall (N : Arith) (data : AdminDoc N),
    (forall polygons coords,
        load_feature N polygons {| admin_geometry := GeomPolygon coords |} =
          polygons ++ [coords]) /\
    (forall polygons coords,
        load_feature N polygons {| admin_geometry := GeomMultiPolygon coords |} =
          polygons ++ coords) /\
    (forall polygons,
        load_feature N polygons {| admin_geometry := GeomOther |} = polygons) /\
    load_polygons N data =
      match flat_map (feature_polygons N) (admin_features data) with
      | [] => Raise (SystemExit no_polygon_msg)
      | poly :: rest => Ok (poly :: rest)
      end /\
    load_polygons N
      {| admin_features :=
           filter (fun feat => negb (is_other N feat)) (admin_features data) |} =
      load_polygons N data /\
    (flat_map (feature_polygons N) (admin_features data) = [] ->
     load_boundary N data = Raise (SystemExit no_polygon_msg) /\
     forall (Payload : Type) (fetch : BBox N -> list (Feature N Payload)),
       main N Payload fetch data = Raise (SystemExit no_polygon_msg)).
Proof.
  intros N data.
  split; [reflexivity|]. split; [reflexivity|]. split; [reflexivity|].
  split; [apply load_polygons_value|]. split.
  - rewrite !load_polygons_value. simpl. rewrite flat_map_skip_other.
    reflexivity.
  - intros Hempty. split.
    + unfold load_boundary. rewrite load_polygons_value, Hempty. reflexivity.
    + intros Payload fetch. unfold main, load_boundary.
      rewrite load_polygons_value, Hempty. reflexivity.
Qed.

Lemma boundary_loader_polygons_witness :
  flat_map (feature_polygons FloatArith) (admin_features line_only) = [] /\
  load_boundary FloatArith line_only = Raise (SystemExit no_polygon_msg).
Proof.
  split; [reflexivity|].
  apply (proj2 (proj2 (proj2 (proj2 (proj2
           (boundary_loader_polygons FloatArith line_only)))))).
  reflexivity.
Defined.

(** C7: when the polygon set has a vertex, the bounding box is made of a
    least and a greatest x and a least and a greatest y among all the
    vertices of all the rings of all the polygons, so that, no coordinate
    being NaN, every vertex lies within it; for the two disjoint squares
    it is (0, 14, 0, 14). *)
Theorem bounding_box_min_max :
  (forall polygons : PolygonSet FloatArith,
     (exists poly ring pt, In poly polygons /\ In ring poly /\ In pt ring) ->
     exists bbox,
       bounding_box FloatArith polygons = Ok bbox /\
       is_minimum FloatArith (min_lon bbox)
         (map fst (all_pts FloatArith polygons)) /\
       is_maximum FloatArith (max_lon bbox)
         (map fst (all_pts FloatArith polygons)) /\
       is_minimum FloatArith (min_lat bbox)
         (map snd (all_pts FloatArith polygons)) /\
       is_maximum FloatArith (max_lat bbox)
         (map snd (all_pts FloatArith polygons)) /\
       (forall pt, In pt (all_pts FloatArith polygons) <->
                   exists poly ring,
                     In poly polygons /\ In ring poly /\ In pt ring) /\
       ((forall pt, In pt (all_pts FloatArith polygons) ->
                    is_nan (fst pt) = false /\ is_nan (snd pt) = false) ->
        forall pt, In pt (all_pts FloatArith polygons) ->
          PrimFloat.leb (min_lon bbox) (fst pt) = true /\
          PrimFloat.leb (fst pt) (max_lon bbox) = true /\
          PrimFloat.leb (min_lat bbox) (snd pt) = true /\
          PrimFloat.leb (snd pt) (max_lat bbox) = true)) /\
  bounding_box FloatArith disjoint_squares =
    Ok {| min_lon := 0%float; max_lon := 14%float;
          min_lat := 0%float; max_lat := 14%float |}.
Proof.
  split; [|vm_compute; reflexivity].
  intros polygons (poly & ring & pt & Hpoly & Hring & Hpt).
  assert (Hpts : all_pts FloatArith polygons <> []).
  { intros Hnil.
    assert (Hin : In pt (all_pts FloatArith polygons)).
    { apply in_all_pts. exists poly, ring. auto. }
    rewrite Hnil in Hin. exact Hin. }
  destruct (bounding_box_extremes FloatArith polygons Float_lt_strict_order
              Float_gt_strict_order Hpts)
    as (bbox & Hbox & H1 & H2 & H3 & H4).
  exists bbox. repeat (split; [assumption|]).
  split; [intros p; apply in_all_pts|].
  intros Hnan p Hp.
  assert (Hx : forall v, In v (map fst (all_pts FloatArith polygons)) ->
                         is_nan v = false).
  { intros v Hv. apply in_map_iff in Hv. destruct Hv as (q & <- & Hq).
    apply (Hnan q Hq). }
  assert (Hy : forall v, In v (map snd (all_pts FloatArith polygons)) ->
                         is_nan v = false).
  { intros v Hv. apply in_map_iff in Hv. destruct Hv as (q & <- & Hq).
    apply (Hnan q Hq). }
  pose proof (in_map fst _ _ Hp) as Hpx. pose proof (in_map snd _ _ Hp) as Hpy.
  destruct H1 as [I1 L1], H2 as [I2 L2], H3 as [I3 L3], H4 as [I4 L4].
  simpl in L1, L2, L3, L4.
  repeat split; apply float_leb_of_not_ltb; auto.
Qed.

Lemma bounding_box_min_max_witness :
  (exists poly ring pt,
      In poly disjoint_squares /\ In ring poly /\ In pt ring) /\
  exists bbox,
    bounding_box FloatArith disjoint_squares = Ok bbox /\
    is_minimum FloatArith (min_lon bbox)
      (map fst (all_pts FloatArith disjoint_squares)).
Proof.
  assert (Hv : exists poly ring pt,
             In poly disjoint_squares /\ In ring poly /\ In pt ring).
  { exists [square FloatArith 0%float 4%float],
           (square FloatArith 0%float 4%float), (0%float, 0%float).
    repeat split; left; reflexivity. }
  split; [exact Hv|].
  destruct (proj1 bounding_box_min_max disjoint_squares Hv)
    as (bbox & Hb & Hmin & _).
  exists bbox. split; assumption.
Defined.

(** C9, as the code has it: a polygon set that is not empty but has no
    vertex gets past the [SystemExit] test, and the bounding box then
    fails in [min] with [ValueError], which is not [SystemExit]; nothing
    is fetched or written. *)
Theorem zero_vertex_boundary_value_error :
  forall (N : Arith) (data : AdminDoc N) (polygons : PolygonSet N),
    load_polygons N data = Ok polygons ->
    all_pts N polygons = [] ->
    polygons <> [] /\
    bounding_box N polygons = Raise ValueError /\
    load_boundary N data = Raise ValueError /\
    (forall (Payload : Type) (fetch : BBox N -> list (Feature N Payload)),
        main N Payload fetch data = Raise ValueError) /\
    (forall msg, @Raise (PolygonSet N * BBox N) ValueError <>
                 Raise (SystemExit msg)).
Proof.
  intros N data polygons Hload Hpts.
  pose proof (bounding_box_no_vertex N polygons Hpts) as Hbox.
  split; [|split; [exact Hbox|split; [|split]]].
  - intros ->. unfold load_polygons in Hload.
    destruct (fold_left _ _ _); discriminate.
  - unfold load_boundary. rewrite Hload. simpl. rewrite Hbox. reflexivity.
  - intros Payload fetch. unfold main, load_boundary.
    rewrite Hload. simpl. rewrite Hbox. reflexivity.
  - intros msg. discriminate.
Qed.

Lemma zero_vertex_boundary_value_error_witness :
  load_polygons FloatArith vertexless = Ok [[[]]] /\
  all_pts FloatArith [[[]]] = [] /\
  load_boundary FloatArith vertexless = Raise ValueError.
Proof.
  split; [reflexivity|]. split; [reflexivity|].
  apply (zero_vertex_boundary_value_error FloatArith vertexless [[[]]]
           eq_refl eq_refl).
Defined.

(** The polygon set of [vertexless] is not empty and has no vertex; the
    run ends with [ValueError], where the empty polygon set of
    [line_only] ends it with [SystemExit]. *)
Lemma vertexless_not_system_exit :
  load_polygons FloatArith vertexless = Ok [[[]]] /\
  all_pts FloatArith [[[]]] = [] /\
  bounding_box FloatArith [[[]]] = Raise ValueError /\
  load_boundary FloatArith vertexless = Raise ValueError /\
  load_boundary FloatArith line_only = Raise (SystemExit no_polygon_msg) /\
  load_boundary FloatArith vertexless <> load_boundary FloatArith line_only /\
  ~ (forall polygons : PolygonSet FloatArith,
        polygons <> [] -> all_pts FloatArith polygons = [] ->
        bounding_box FloatArith polygons = Raise (SystemExit no_polygon_msg)).
Proof.
  repeat split; try reflexivity.
  - discriminate.
  - intros H. specialize (H [[[]]]).
    assert (Hne : ([[[]]] : PolygonSet FloatArith) <> []) by discriminate.
    specialize (H Hne eq_refl). discriminate.
Qed.

(** * Beyond the claims *)

(** ** The paginated fetch *)

Lemma limit_pos : 0 < limit.
Proof. apply Nat.ltb_lt. vm_compute. reflexivity. Qed.

Lemma map_seq_S {A : Type} (f : nat -> A) (n : nat) :
  map f (seq 0 (S n)) = f 0 :: map (fun i => f (S i)) (seq 0 n).
Proof.
  change (seq 0 (S n)) with (0 :: seq 1 n).
  rewrite <- seq_shift, map_cons, map_map. reflexivity.
Qed.

Lemma flat_map_seq_S {A : Type} (f : nat -> list A) (n : nat) :
  flat_map f (seq 0 (S n)) = f 0 ++ flat_map (fun i => f (S i)) (seq 0 n).
Proof.
  rewrite !flat_map_concat_map, map_seq_S. reflexivity.
Qed.

Section Pagination.

Variable N : Arith.
Variable Payload : Type.

Local Abbreviation Event := (Feature N Payload).

Lemma fetch_loop_step (fuel : nat) (page : nat -> option (list Event))
  (offset : nat) (acc : list Event) (req : list nat) :
  fetch_loop N Payload (S fuel) page offset acc req =
    if length (page_batch N Payload page offset) <? limit
    then Some (acc ++ page_batch N Payload page offset, req ++ [offset])
    else fetch_loop N Payload fuel page (offset + limit)
           (acc ++ page_batch N Payload page offset) (req ++ [offset]).
Proof. reflexivity. Qed.

(** The loop runs through the full pages and ends on the first short
    one. *)
Lemma fetch_loop_pages (page : nat -> option (list Event)) (k : nat) :
  forall (fuel offset : nat) (acc : list Event) (req : list nat),
    k < fuel ->
    (forall i, i < k ->
       limit <= length (page_batch N Payload page (offset + i * limit))) ->
    length (page_batch N Payload page (offset + k * limit)) < limit ->
    fetch_loop N Payload fuel page offset acc req =
      Some (acc ++ flat_map
                     (fun i => page_batch N Payload page (offset + i * limit))
                     (seq 0 (S k)),
            req ++ map (fun i => offset + i * limit) (seq 0 (S k))).
Proof.
  induction k as [|k IH]; intros fuel offset acc req Hfuel Hfull Hshort;
    (destruct fuel as [|fuel]; [lia|]); rewrite fetch_loop_step;
    rewrite flat_map_seq_S, map_seq_S, Nat.mul_0_l, Nat.add_0_r.
  - rewrite Nat.mul_0_l, Nat.add_0_r in Hshort.
    apply Nat.ltb_lt in Hshort. rewrite Hshort.
    cbn [seq flat_map map]. rewrite app_nil_r. reflexivity.
  - assert (H0 : limit <= length (page_batch N Payload page offset)).
    { specialize (Hfull 0 ltac:(lia)).
      rewrite Nat.mul_0_l, Nat.add_0_r in Hfull. exact Hfull. }
    apply Nat.ltb_ge in H0. rewrite H0.
    rewrite (IH fuel (offset + limit)).
    + rewrite <- !app_assoc. cbn [app].
      assert (Hshift : forall i,
                 offset + limit + i * limit = offset + S i * limit) by lia.
      rewrite (flat_map_ext _ _
                 (fun i => f_equal (page_batch N Payload page) (Hshift i))).
      rewrite (map_ext _ _ Hshift). reflexivity.
    + lia.
    + intros i Hi. specialize (Hfull (S i) ltac:(lia)).
      replace (offset + limit + i * limit) with (offset + S i * limit) by lia.
      exact Hfull.
    + replace (offset + limit + k * limit) with (offset + S k * limit) by lia.
      exact Hshort.
Qed.

(** Consecutive slices of [limit] items put a list back together. *)
Lemma slices_concat (n : nat) :
  forall events : list Event,
    length events <= n * limit ->
    flat_map (fun i => firstn limit (skipn (i * limit) events)) (seq 0 n) =
      events.
Proof.
  induction n as [|n IH]; intros events Hlen.
  - destruct events; [reflexivity | simpl in Hlen; lia].
  - rewrite flat_map_seq_S, Nat.mul_0_l. cbn [skipn].
    transitivity (firstn limit events ++ skipn limit events);
      [|apply firstn_skipn].
    f_equal. transitivity
      (flat_map (fun i => firstn limit (skipn (i * limit) (skipn limit events)))
                (seq 0 n)).
    + apply flat_map_ext. intros i. rewrite skipn_skipn. do 2 f_equal. lia.
    + apply IH. rewrite length_skipn. lia.
Qed.

End Pagination.

Section PaginationFacts.

Variable N : Arith.
Variable Payload : Type.

Local Abbreviation Event := (Feature N Payload).

Lemma catalogue_page_batch (events : list Event)
  (page : nat -> option (list Event)) (i : nat) :
  (forall offset, 1 <= offset ->
     page offset = catalogue_page N Payload events offset) ->
  page_batch N Payload page (1 + i * limit) =
    firstn limit (skipn (i * limit) events).
Proof.
  intros Hpage. unfold page_batch. rewrite Hpage by lia.
  unfold catalogue_page. do 2 f_equal. lia.
Qed.

(** Every request adds its offset to the record. *)
Lemma fetch_loop_requested (page : nat -> option (list Event)) (fuel : nat) :
  forall (offset : nat) (acc : list Event) (req : list nat)
         (all_features : list Event) (requested : list nat),
    fetch_loop N Payload fuel page offset acc req =
      Some (all_features, requested) ->
    exists later, requested = req ++ offset :: later.
Proof.
  induction fuel as [|fuel IH]; intros offset acc req all_features requested H;
    [discriminate|].
  rewrite fetch_loop_step in H.
  destruct (length (page_batch N Payload page offset) <? limit).
  - injection H as _ <-. exists []. reflexivity.
  - apply IH in H. destruct H as [later ->].
    exists ((offset + limit) :: later). rewrite <- app_assoc. reflexivity.
Qed.

Lemma fetch_loop_never_ends (page : nat -> option (list Event)) (fuel : nat) :
  forall (i : nat) (acc : list Event) (req : list nat),
    (forall j, limit <= length (page_batch N Payload page (1 + j * limit))) ->
    fetch_loop N Payload fuel page (1 + i * limit) acc req = None.
Proof.
  induction fuel as [|fuel IH]; intros i acc req Hfull; [reflexivity|].
  rewrite fetch_loop_step.
  pose proof (Hfull i) as Hi. apply Nat.ltb_ge in Hi. rewrite Hi.
  replace (1 + i * limit + limit) with (1 + S i * limit) by lia.
  apply IH. exact Hfull.
Qed.

Lemma fetch_loop_catalogue (events : list Event)
  (page : nat -> option (list Event)) (fuel : nat) :
  (forall offset, 1 <= offset ->
     page offset = catalogue_page N Payload events offset) ->
  length events / limit < fuel ->
  fetch_loop N Payload fuel page 1 [] [] =
    Some (events, request_offsets (S (length events / limit))).
Proof.
  intros Hpage Hfuel. pose proof limit_pos as Hpos.
  assert (Hlo : limit * (length events / limit) <= length events)
    by (apply Nat.Div0.mul_div_le).
  assert (Hhi : length events < limit * S (length events / limit))
    by (apply Nat.mul_succ_div_gt; lia).
  set (k := length events / limit) in *.
  rewrite (fetch_loop_pages N Payload page k fuel 1 [] [] Hfuel).
  - cbn [app]. f_equal. f_equal.
    rewrite (flat_map_ext _ _
               (fun i => catalogue_page_batch events page i Hpage)).
    apply slices_concat. lia.
  - intros i Hi. rewrite (catalogue_page_batch events page i Hpage).
    rewrite length_firstn, length_skipn.
    assert (S i * limit <= k * limit) by (apply Nat.mul_le_mono_r; lia).
    lia.
  - rewrite (catalogue_page_batch events page k Hpage).
    rewrite length_firstn, length_skipn. lia.
Qed.

End PaginationFacts.

(** X1: the fetch loop asks for offsets 1, 20001, 40001, ... and stops
    after the first answer with fewer than 20000 features (an answer
    without the key counts as empty); what it returns is the answers it
    got, one after the other, and nothing beyond the short one is asked
    for. *)
Theorem fetch_all_stops_at_short_page :
  forall (N : Arith) (Payload : Type)
         (page : nat -> option (list (Feature N Payload))) (k fuel : nat),
    k < fuel ->
    (forall i, i < k ->
       limit <= length (page_batch N Payload page (1 + i * limit))) ->
    length (page_batch N Payload page (1 + k * limit)) < limit ->
    fetch_all N Payload fuel page =
      Some (flat_map (fun i => page_batch N Payload page (1 + i * limit))
                     (seq 0 (S k)),
            request_offsets (S k)).
Proof.
  intros N Payload page k fuel Hfuel Hfull Hshort. unfold fetch_all.
  rewrite (fetch_loop_pages N Payload page k fuel 1 [] [] Hfuel Hfull Hshort).
  reflexivity.
Qed.

Lemma fetch_all_stops_at_short_page_witness :
  1 < 2 /\
  (forall i, i < 1 ->
     limit <= length (page_batch FloatArith string full_then_one
                        (1 + i * limit))) /\
  length (page_batch FloatArith string full_then_one (1 + 1 * limit)) < limit /\
  fetch_all FloatArith string 2 full_then_one =
    Some (flat_map (fun i => page_batch FloatArith string full_then_one
                               (1 + i * limit))
                   (seq 0 2),
          request_offsets 2).
Proof.
  assert (H1 : forall i, i < 1 ->
            limit <= length (page_batch FloatArith string full_then_one
                               (1 + i * limit))).
  { intros i Hi. assert (i = 0) as -> by lia.
    apply Nat.leb_le. vm_compute. reflexivity. }
  assert (H2 : length (page_batch FloatArith string full_then_one
                         (1 + 1 * limit)) < limit).
  { apply Nat.ltb_lt. vm_compute. reflexivity. }
  split; [lia|]. split; [exact H1|]. split; [exact H2|].
  apply (fetch_all_stops_at_short_page FloatArith string full_then_one 1 2);
    [lia | exact H1 | exact H2].
Defined.

(** X2: against a service that pages a catalogue of events (position
    [offset], counted from 1, and the 19999 after it), the loop returns
    the whole catalogue, in order and once each, after
    [length / 20000 + 1] requests; a catalogue that fills its last page
    costs one more request, answered by an empty page. *)
Theorem fetch_all_catalogue :
  forall (N : Arith) (Payload : Type) (events : list (Feature N Payload))
         (page : nat -> option (list (Feature N Payload))) (fuel : nat),
    (forall offset, 1 <= offset ->
       page offset = catalogue_page N Payload events offset) ->
    length events / limit < fuel ->
    fetch_all N Payload fuel page =
      Some (events, request_offsets (S (length events / limit))).
Proof.
  intros N Payload events page fuel Hpage Hfuel. unfold fetch_all.
  apply fetch_loop_catalogue; assumption.
Qed.

Lemma fetch_all_catalogue_witness :
  (forall offset, 1 <= offset ->
     catalogue_page FloatArith string sample_features offset =
     catalogue_page FloatArith string sample_features offset) /\
  length sample_features / limit < 1 /\
  fetch_all FloatArith string 1 (catalogue_page FloatArith string sample_features)
    = Some (sample_features,
            request_offsets (S (length sample_features / limit))).
Proof.
  assert (Hfuel : length sample_features / limit < 1)
    by (apply Nat.ltb_lt; vm_compute; reflexivity).
  split; [reflexivity|]. split; [exact Hfuel|].
  apply (fetch_all_catalogue FloatArith string sample_features
           (catalogue_page FloatArith string sample_features) 1);
    [reflexivity | exact Hfuel].
Defined.

(** X3: the loop has no bound of its own: against a service that answers
    every request of the sequence with a full page it never ends,
    however many iterations it is given. *)
Theorem fetch_all_never_ends :
  forall (N : Arith) (Payload : Type)
         (page : nat -> option (list (Feature N Payload))),
    (forall i, limit <= length (page_batch N Payload page (1 + i * limit))) ->
    forall fuel, fetch_all N Payload fuel page = None.
Proof.
  intros N Payload page Hfull fuel. unfold fetch_all.
  apply (fetch_loop_never_ends N Payload page fuel 0 [] [] Hfull).
Qed.

Lemma fetch_all_never_ends_witness :
  (forall i, limit <= length (page_batch FloatArith string always_full
                                (1 + i * limit))) /\
  fetch_all FloatArith string 5 always_full = None.
Proof.
  assert (H : forall i, limit <= length (page_batch FloatArith string
                                           always_full (1 + i * limit))).
  { intros i. apply Nat.leb_le. vm_compute. reflexivity. }
  split; [exact H|].
  apply (fetch_all_never_ends FloatArith string always_full H 5).
Defined.

(** ** More on the order of binary64 *)

Section Binary64Order.

Local Open Scope Z_scope.

Lemma SFltb_leb_trans (x y z : spec_float) :
  SFltb x y = true -> SFleb y z = true -> SFltb x z = true.
Proof.
  unfold SFltb, SFleb.
  destruct x as [sx|sx| |sx mx ex], y as [sy|sy| |sy my ey],
           z as [sz|sz| |sz mz ez]; simpl;
    try discriminate; try reflexivity;
    try (destruct sx; discriminate); try (destruct sy; discriminate);
    try (destruct sz; discriminate);
    try (destruct sx, sy; discriminate); try (destruct sy, sz; discriminate);
    try (destruct sx, sz; (discriminate || reflexivity));
    try (destruct sx, sy, sz; (discriminate || reflexivity)).
  all: fold (Pos.compare mx my); fold (Pos.compare my mz);
       fold (Pos.compare mx mz).
  all: destruct sx, sy, sz; try discriminate; try reflexivity.
  all: destruct (Z.compare_spec ex ey), (Z.compare_spec ey ez),
         (Z.compare_spec ex ez); try discriminate; try reflexivity;
       try lia.
  all: destruct (Pos.compare_spec mx my), (Pos.compare_spec my mz),
         (Pos.compare_spec mx mz); simpl; try discriminate; try reflexivity;
       try lia.
Qed.

Lemma SFleb_ltb_trans (x y z : spec_float) :
  SFleb x y = true -> SFltb y z = true -> SFltb x z = true.
Proof.
  unfold SFltb, SFleb.
  destruct x as [sx|sx| |sx mx ex], y as [sy|sy| |sy my ey],
           z as [sz|sz| |sz mz ez]; simpl;
    try discriminate; try reflexivity;
    try (destruct sx; discriminate); try (destruct sy; discriminate);
    try (destruct sz; discriminate);
    try (destruct sx, sy; discriminate); try (destruct sy, sz; discriminate);
    try (destruct sx, sz; (discriminate || reflexivity));
    try (destruct sx, sy, sz; (discriminate || reflexivity)).
  all: fold (Pos.compare mx my); fold (Pos.compare my mz);
       fold (Pos.compare mx mz).
  all: destruct sx, sy, sz; try discriminate; try reflexivity.
  all: destruct (Z.compare_spec ex ey), (Z.compare_spec ey ez),
         (Z.compare_spec ex ez); try discriminate; try reflexivity;
       try lia.
  all: destruct (Pos.compare_spec mx my), (Pos.compare_spec my mz),
         (Pos.compare_spec mx mz); simpl; try discriminate; try reflexivity;
       try lia.
Qed.

Lemma SFcompare_refl (x : spec_float) :
  x <> S754_nan -> SFcompare x x = Some Eq.
Proof.
  destruct x as [s|s| |s m e]; simpl; try congruence; intros _.
  - destruct s; reflexivity.
  - rewrite Z.compare_refl, Pos.compare_cont_refl. destruct s; reflexivity.
Qed.

Lemma is_nan_true (a : float) : is_nan a = true -> Prim2SF a = S754_nan.
Proof.
  unfold is_nan. rewrite eqb_spec. unfold SFeqb. intros H.
  destruct (Prim2SF a) as [s|s| |s m e] eqn:Ha; [| |reflexivity|];
    rewrite SFcompare_refl in H by discriminate; discriminate.
Qed.

End Binary64Order.

Lemma float_ltb_leb_trans (a b c : float) :
  PrimFloat.ltb a b = true -> PrimFloat.leb b c = true ->
  PrimFloat.ltb a c = true.
Proof. rewrite !ltb_spec, leb_spec. apply SFltb_leb_trans. Qed.

Lemma float_leb_ltb_trans (a b c : float) :
  PrimFloat.leb a b = true -> PrimFloat.ltb b c = true ->
  PrimFloat.ltb a c = true.
Proof. rewrite !ltb_spec, leb_spec. apply SFleb_ltb_trans. Qed.

(** NaN is below nothing and nothing is below NaN. *)
Lemma float_nan_ltb_l (a b : float) :
  is_nan a = true -> PrimFloat.ltb a b = false.
Proof.
  intros H. rewrite ltb_spec, (is_nan_true a H). reflexivity.
Qed.

Lemma float_nan_ltb_r (a b : float) :
  is_nan b = true -> PrimFloat.ltb a b = false.
Proof.
  intros H. rewrite ltb_spec, (is_nan_true b H). unfold SFltb.
  destruct (Prim2SF a); reflexivity.
Qed.

(** ** More on the rings *)

Lemma combine_app_eq {A B : Type} (l1 l2 : list A) (m1 m2 : list B) :
  length l1 = length m1 ->
  combine (l1 ++ l2) (m1 ++ m2) = combine l1 m1 ++ combine l2 m2.
Proof.
  revert m1. induction l1 as [|a l1 IH]; intros [|b m1] Hlen;
    try discriminate; [reflexivity|].
  simpl. f_equal. apply IH. injection Hlen as Hlen. exact Hlen.
Qed.

Lemma fold_left_unchanged {A S : Type} (items : list A) (s : S) :
  fold_left (fun s _ => s) items s = s.
Proof. induction items; simpl; auto. Qed.

Section RingFacts.

Variable N : Arith.

(** The edges pair every vertex with the next one, the last with the
    first. *)
Lemma ring_edges_zip (v0 : Coordinate N) (rest : Ring N) :
  ring_edges N (v0 :: rest) = combine (v0 :: rest) (rest ++ [v0]).
Proof.
  set (ring := v0 :: rest).
  change (map (fun i => (nth i ring v0, nth ((i + 1) mod length ring) ring v0))
              (seq 0 (length ring)) =
          combine ring (rest ++ [v0])).
  assert (Hn : length ring = S (length rest)) by reflexivity.
  apply nth_ext with
    (d := (nth 0 ring v0, nth ((0 + 1) mod length ring) ring v0))
    (d' := (v0, v0)).
  - rewrite length_map, length_seq, length_combine, length_app, Hn.
    cbn [length]. lia.
  - rewrite length_map, length_seq. intros i Hi.
    rewrite (map_nth (fun i => (nth i ring v0,
                                nth ((i + 1) mod length ring) ring v0))).
    rewrite seq_nth by exact Hi. simpl Nat.add.
    rewrite combine_nth by (rewrite length_app, Hn; cbn [length]; lia).
    f_equal.
    destruct (Nat.eq_dec (i + 1) (length ring)) as [Heq|Hneq].
    + rewrite Heq, Nat.Div0.mod_same.
      rewrite app_nth2 by lia.
      replace (i - length rest) with 0 by lia. reflexivity.
    + rewrite Nat.mod_small by lia.
      rewrite app_nth1 by lia.
      rewrite Nat.add_1_r. reflexivity.
Qed.

(** With all the vertices on one side of the line through the point no
    edge straddles it. *)
Lemma point_in_ring_same_side (x y : N) (ring : Ring N) (b : bool) :
  (forall pt, In pt ring -> gt N (snd pt) y = b) ->
  point_in_ring N x y ring = Ok false.
Proof.
  intros Hside. unfold point_in_ring.
  destruct (length ring <? 3); [reflexivity|].
  rewrite (for_each_pure (ring_step N x y ring (length ring)) (fun s _ => s)).
  - rewrite fold_left_unchanged. reflexivity.
  - intros s i Hi. apply in_seq in Hi.
    destruct (ring_indices N ring i) as (p1 & p2 & H1 & H2); [lia|].
    rewrite (ring_step_edge N x y ring (length ring) i s p1 p2 H1 H2).
    pose proof (Hside _ (nth_error_In _ _ H1)) as E1.
    pose proof (Hside _ (nth_error_In _ _ H2)) as E2.
    destruct p1 as [x1 y1], p2 as [x2 y2]. unfold straddles.
    simpl in E1, E2. rewrite E1, E2, Bool.eqb_reflx. reflexivity.
Qed.

(** A point that is to the left of nothing crosses no edge. *)
Lemma point_in_ring_never_left (x y : N) (ring : Ring N) :
  sub_zero_law N -> (forall v, lt N x v = false) ->
  point_in_ring N x y ring = Ok false.
Proof.
  intros Hsub Hx. unfold point_in_ring.
  destruct (length ring <? 3); [reflexivity|].
  rewrite (for_each_pure (ring_step N x y ring (length ring)) (fun s _ => s)).
  - rewrite fold_left_unchanged. reflexivity.
  - intros s i Hi. apply in_seq in Hi.
    destruct (ring_indices N ring i) as (p1 & p2 & H1 & H2); [lia|].
    rewrite (ring_step_edge N x y ring (length ring) i s p1 p2 H1 H2).
    destruct p1 as [x1 y1], p2 as [x2 y2].
    pose proof (straddles_divisor N y x1 y1 x2 y2 Hsub) as Hdiv.
    unfold truediv. simpl in *.
    destruct (negb (Bool.eqb (gt N y1 y) (gt N y2 y))); [|reflexivity].
    rewrite Hdiv by reflexivity. simpl. rewrite Hx. reflexivity.
Qed.

(** A point outside every exterior ring is outside the polygon set; the
    holes are not looked at. *)
Lemma point_in_multipolygon_exteriors (x y : N) (multipoly : PolygonSet N) :
  (forall exterior holes, In (exterior :: holes) multipoly ->
     point_in_ring N x y exterior = Ok false) ->
  point_in_multipolygon N x y multipoly = Ok false.
Proof.
  induction multipoly as [|poly rest IH]; intros Hext; [reflexivity|].
  simpl. destruct poly as [|exterior holes]; simpl.
  - apply IH. intros e h Hin. apply (Hext e h). right; exact Hin.
  - rewrite (Hext exterior holes) by (left; reflexivity). simpl.
    apply IH. intros e h Hin. apply (Hext e h). right; exact Hin.
Qed.

Lemma exterior_in_all_pts (multipoly : PolygonSet N) (exterior : Ring N)
  (holes : list (Ring N)) (pt : Coordinate N) :
  In (exterior :: holes) multipoly -> In pt exterior ->
  In pt (all_pts N multipoly).
Proof.
  intros Hpoly Hpt. apply in_all_pts. exists (exterior :: holes), exterior.
  split; [exact Hpoly|]. split; [left; reflexivity | exact Hpt].
Qed.

End RingFacts.

Section RingParity.

Variable N : Arith.
Hypothesis Hsub : sub_zero_law N.
Hypothesis Hadd : add_comm_law N.

Lemma point_in_ring_parity (x y : N) (ring : Ring N) :
  3 <= length ring ->
  point_in_ring N x y ring =
    Ok (Nat.odd (length (filter (toggles N x y) (ring_edges N ring)))).
Proof.
  intros Hlen. unfold point_in_ring.
  destruct (length ring <? 3) eqn:Hlt; [apply Nat.ltb_lt in Hlt; lia|].
  rewrite (ring_loop_even_odd N x y ring Hsub Hadd).
  unfold even_odd. rewrite parity_fold_odd. reflexivity.
Qed.

Lemma toggles_degenerate (x y : N) (v : Coordinate N) :
  toggles N x y (v, v) = false.
Proof.
  unfold toggles, straddles. destruct v as [xv yv].
  rewrite Bool.eqb_reflx. reflexivity.
Qed.

Lemma point_in_ring_closed (x y : N) (v0 : Coordinate N) (rest : Ring N) :
  3 <= length (v0 :: rest) ->
  point_in_ring N x y (v0 :: rest ++ [v0]) = point_in_ring N x y (v0 :: rest).
Proof.
  intros Hlen.
  rewrite !point_in_ring_parity;
    [|exact Hlen | cbn [length] in *; rewrite length_app; cbn [length]; lia].
  rewrite !ring_edges_zip.
  change (v0 :: rest ++ [v0]) with ((v0 :: rest) ++ [v0]).
  rewrite combine_app_eq by (rewrite length_app; cbn [length]; lia).
  rewrite filter_app. cbn [combine filter].
  rewrite toggles_degenerate, app_nil_r. reflexivity.
Qed.

Lemma point_in_ring_rotated (x y : N) (v0 : Coordinate N) (rest : Ring N) :
  point_in_ring N x y (rest ++ [v0]) = point_in_ring N x y (v0 :: rest).
Proof.
  destruct (Nat.lt_ge_cases (length (v0 :: rest)) 3) as [Hshort|Hlong].
  - unfold point_in_ring. rewrite length_app. cbn [length] in *.
    replace (length rest + 1 <? 3) with true by (symmetry; apply Nat.ltb_lt; lia).
    replace (S (length rest) <? 3) with true by (symmetry; apply Nat.ltb_lt; lia).
    reflexivity.
  - destruct rest as [|v1 rest']; [cbn [length] in Hlong; lia|].
    rewrite !point_in_ring_parity;
      [|exact Hlong | rewrite length_app; cbn [length] in *; lia].
    change ((v1 :: rest') ++ [v0]) with (v1 :: (rest' ++ [v0])).
    rewrite !ring_edges_zip.
    change (v1 :: rest' ++ [v0]) with ((v1 :: rest') ++ [v0]).
    rewrite combine_app_eq by (rewrite length_app; cbn [length]; lia).
    cbn [combine app].
    rewrite filter_app, length_app. cbn [filter].
    destruct (toggles N x y (v0, v1)); cbn [length];
      rewrite ?Nat.add_1_r, ?Nat.add_0_r; reflexivity.
Qed.

End RingParity.

(** X6: a ring written the GeoJSON way, with its first vertex repeated at
    the end, contains the same points as the ring without the
    repetition, as soon as this one has three vertices. *)
Theorem closing_vertex_ignored :
  forall (x y : float) (v0 : Coordinate FloatArith) (rest : Ring FloatArith),
    3 <= length (v0 :: rest) ->
    point_in_ring FloatArith x y (v0 :: rest ++ [v0]) =
      point_in_ring FloatArith x y (v0 :: rest).
Proof.
  intros x y v0 rest Hlen.
  apply point_in_ring_closed;
    [exact Float_sub_zero_law | exact Float_add_comm_law | exact Hlen].
Qed.

Lemma closing_vertex_ignored_witness :
  3 <= length ((0, 0) :: [(4, 0); (4, 4); (0, 4)])%float /\
  point_in_ring FloatArith 2%float 2%float
    ((0, 0) :: [(4, 0); (4, 4); (0, 4)] ++ [(0, 0)])%float =
  point_in_ring FloatArith 2%float 2%float
    ((0, 0) :: [(4, 0); (4, 4); (0, 4)])%float.
Proof.
  split; [cbn [length]; lia|].
  apply (closing_vertex_ignored 2%float 2%float (0, 0)%float
           [(4, 0); (4, 4); (0, 4)]%float).
  cbn [length]; lia.
Defined.

(** X7: the vertex a ring starts from does not matter: moving the first
    vertex to the end leaves [point_in_ring] unchanged, for every point. *)
Theorem ring_start_irrelevant :
  forall (x y : float) (v0 : Coordinate FloatArith) (rest : Ring FloatArith),
    point_in_ring FloatArith x y (rest ++ [v0]) =
      point_in_ring FloatArith x y (v0 :: rest).
Proof.
  intros x y v0 rest.
  apply point_in_ring_rotated;
    [exact Float_sub_zero_law | exact Float_add_comm_law].
Qed.



(** ** The written events and the bounding box *)

Lemma point_in_multipolygon_same_side (N : Arith) (x y : N) (b : bool)
  (multipoly : PolygonSet N) :
  (forall pt, In pt (all_pts N multipoly) -> gt N (snd pt) y = b) ->
  point_in_multipolygon N x y multipoly = Ok false.
Proof.
  intros Hside. apply point_in_multipolygon_exteriors.
  intros exterior holes Hpoly.
  apply (point_in_ring_same_side N x y exterior b).
  intros pt Hpt. apply Hside.
  exact (exterior_in_all_pts N multipoly exterior holes pt Hpoly Hpt).
Qed.

Lemma bounding_box_latitudes (polygons : PolygonSet FloatArith)
  (bbox : BBox FloatArith) :
  bounding_box FloatArith polygons = Ok bbox ->
  is_minimum FloatArith (min_lat bbox)
    (map snd (all_pts FloatArith polygons)) /\
  is_maximum FloatArith (max_lat bbox)
    (map snd (all_pts FloatArith polygons)) /\
  is_minimum FloatArith (min_lon bbox)
    (map fst (all_pts FloatArith polygons)) /\
  is_maximum FloatArith (max_lon bbox)
    (map fst (all_pts FloatArith polygons)).
Proof.
  intros Hbox.
  assert (Hpts : all_pts FloatArith polygons <> []).
  { intros Hnil.
    rewrite (bounding_box_no_vertex FloatArith polygons Hnil) in Hbox.
    discriminate. }
  destruct (bounding_box_extremes FloatArith polygons Float_lt_strict_order
              Float_gt_strict_order Hpts)
    as (bbox' & Hbox' & H1 & H2 & H3 & H4).
  rewrite Hbox in Hbox'. injection Hbox' as <-. auto.
Qed.

Lemma float_ltb_of_not_leb (a b : float) :
  is_nan a = false -> is_nan b = false ->
  PrimFloat.leb a b = false -> PrimFloat.ltb b a = true.
Proof.
  intros Ha Hb Hle. destruct (PrimFloat.ltb b a) eqn:Hlt; [reflexivity|].
  rewrite (float_leb_of_not_ltb b a Hb Ha Hlt) in Hle. discriminate.
Qed.

(** A point is in the polygon set only if its latitude is at least that
    of the lowest vertex and below that of the highest. *)
Lemma inside_within_latitudes (polygons : PolygonSet FloatArith)
  (bbox : BBox FloatArith) (x y : float) :
  bounding_box FloatArith polygons = Ok bbox ->
  (forall pt, In pt (all_pts FloatArith polygons) ->
     is_nan (snd pt) = false) ->
  point_in_multipolygon FloatArith x y polygons = Ok true ->
  PrimFloat.leb (min_lat bbox) y = true /\
  PrimFloat.ltb y (max_lat bbox) = true.
Proof.
  intros Hbox Hnan Hin.
  destruct (bounding_box_latitudes polygons bbox Hbox)
    as ([Imin Lmin] & [Imax Lmax] & _).
  assert (Hys : forall pt, In pt (all_pts FloatArith polygons) ->
                           In (snd pt) (map snd (all_pts FloatArith polygons)))
    by (intros pt Hpt; apply in_map; exact Hpt).
  assert (Hmin_nan : is_nan (min_lat bbox) = false).
  { apply in_map_iff in Imin. destruct Imin as (q & <- & Hq).
    exact (Hnan q Hq). }
  assert (Hmax_nan : is_nan (max_lat bbox) = false).
  { apply in_map_iff in Imax. destruct Imax as (q & <- & Hq).
    exact (Hnan q Hq). }
  simpl in Lmin, Lmax.
  assert (Hout : forall b,
             (forall pt, In pt (all_pts FloatArith polygons) ->
                         PrimFloat.ltb y (snd pt) = b) -> False).
  { intros b Hside.
    rewrite (point_in_multipolygon_same_side FloatArith x y b polygons Hside)
      in Hin.
    discriminate. }
  destruct (is_nan y) eqn:Hy.
  { exfalso. apply (Hout false). intros pt _.
    apply float_nan_ltb_l. exact Hy. }
  split.
  - destruct (PrimFloat.leb (min_lat bbox) y) eqn:Hle; [reflexivity|].
    exfalso. apply (Hout true). intros pt Hpt.
    apply float_ltb_leb_trans with (b := min_lat bbox).
    + apply float_ltb_of_not_leb; assumption.
    + apply float_leb_of_not_ltb;
        [exact (Hnan pt Hpt) | exact Hmin_nan | exact (Lmin _ (Hys pt Hpt))].
  - destruct (PrimFloat.ltb y (max_lat bbox)) eqn:Hlt; [reflexivity|].
    exfalso. apply (Hout false). intros pt Hpt.
    destruct (PrimFloat.ltb y (snd pt)) eqn:Hyv; [|reflexivity].
    rewrite <- (Lmax _ (Hys pt Hpt)). symmetry.
    apply float_leb_ltb_trans with (b := y); [|exact Hyv].
    apply float_leb_of_not_ltb; assumption.
Qed.

Lemma written_is_kept (Payload : Type) (polygons : PolygonSet FloatArith)
  (all_features : list (Feature FloatArith Payload))
  (out : OutData FloatArith Payload) (f : Feature FloatArith Payload) :
  filter_pipeline FloatArith Payload polygons all_features = Ok out ->
  (In f (features out) <->
   In f all_features /\ kept FloatArith Payload polygons f = true).
Proof.
  rewrite (filter_pipeline_value FloatArith Payload Float_sub_zero_law).
  intros H. injection H as <-. cbn [features]. apply filter_In.
Qed.

Lemma kept_inside (Payload : Type) (polygons : PolygonSet FloatArith)
  (f : Feature FloatArith Payload) (c0 c1 : float) (rest : list float) :
  feature_coords FloatArith Payload f = c0 :: c1 :: rest ->
  kept FloatArith Payload polygons f = true ->
  point_in_multipolygon FloatArith c0 c1 polygons = Ok true.
Proof.
  intros Hc Hk. unfold kept in Hk. rewrite Hc in Hk.
  rewrite (point_in_multipolygon_value FloatArith Float_sub_zero_law) in *.
  simpl in Hk. rewrite Hk. reflexivity.
Qed.

(** X9: the latitude of every event written lies in the bounding box:
    at least [min_lat] and strictly below [max_lat] (the boundary having
    no NaN latitude). *)
Theorem written_within_latitudes :
  forall (Payload : Type) (polygons : PolygonSet FloatArith)
         (bbox : BBox FloatArith)
         (all_features : list (Feature FloatArith Payload))
         (out : OutData FloatArith Payload)
         (f : Feature FloatArith Payload) (c0 c1 : float) (rest : list float),
    bounding_box FloatArith polygons = Ok bbox ->
    (forall pt, In pt (all_pts FloatArith polygons) ->
       is_nan (snd pt) = false) ->
    filter_pipeline FloatArith Payload polygons all_features = Ok out ->
    In f (features out) ->
    feature_coords FloatArith Payload f = c0 :: c1 :: rest ->
    PrimFloat.leb (min_lat bbox) c1 = true /\
    PrimFloat.ltb c1 (max_lat bbox) = true.
Proof.
  intros Payload polygons bbox all_features out f c0 c1 rest
         Hbox Hnan Hout Hf Hc.
  apply (written_is_kept Payload polygons all_features out f Hout) in Hf.
  destruct Hf as [_ Hk].
  apply (inside_within_latitudes polygons bbox c0 c1 Hbox Hnan).
  exact (kept_inside Payload polygons f c0 c1 rest Hc Hk).
Qed.

(** X10: an event whose longitude or latitude is NaN is never written. *)
Theorem nan_event_never_written :
  forall (Payload : Type) (polygons : PolygonSet FloatArith)
         (all_features : list (Feature FloatArith Payload))
         (out : OutData FloatArith Payload)
         (f : Feature FloatArith Payload) (c0 c1 : float) (rest : list float),
    filter_pipeline FloatArith Payload polygons all_features = Ok out ->
    feature_coords FloatArith Payload f = c0 :: c1 :: rest ->
    is_nan c0 = true \/ is_nan c1 = true ->
    ~ In f (features out).
Proof.
  intros Payload polygons all_features out f c0 c1 rest Hout Hc Hnan Hf.
  apply (written_is_kept Payload polygons all_features out f Hout) in Hf.
  destruct Hf as [_ Hk].
  pose proof (kept_inside Payload polygons f c0 c1 rest Hc Hk) as Hin.
  assert (Hfalse : point_in_multipolygon FloatArith c0 c1 polygons = Ok false).
  { destruct Hnan as [H0 | H1].
    - apply point_in_multipolygon_exteriors. intros exterior holes _.
      apply point_in_ring_never_left; [exact Float_sub_zero_law|].
      intros v. simpl. apply float_nan_ltb_l. exact H0.
    - apply (point_in_multipolygon_same_side FloatArith c0 c1 false).
      intros pt _. simpl. apply float_nan_ltb_l. exact H1. }
  rewrite Hfalse in Hin. discriminate.
Qed.

Lemma written_within_latitudes_witness :
  bounding_box FloatArith [[square FloatArith 0%float 4%float]]
    = Ok {| min_lon := 0%float; min_lat := 0%float;
            max_lon := 4%float; max_lat := 4%float |} /\
  PrimFloat.leb 0%float 2%float = true /\
  PrimFloat.ltb 2%float 4%float = true.
Proof.
  assert (Hbox : bounding_box FloatArith
                   [[square FloatArith 0%float 4%float]]
                 = Ok {| min_lon := 0%float; min_lat := 0%float;
                         max_lon := 4%float; max_lat := 4%float |})
    by (vm_compute; reflexivity).
  split; [exact Hbox|].
  refine (written_within_latitudes string
            ([[square FloatArith 0%float 4%float]]
               : PolygonSet FloatArith)
            {| min_lon := 0%float; min_lat := 0%float;
               max_lon := 4%float; max_lat := 4%float |}
            sample_features _
            {| geometry := Value {| coordinates := Value [2; 2; 10]%float |};
               payload := "us7000a"%string |}
            2%float 2%float [10%float] Hbox _ _ _ _).
  - intros pt [<- | [<- | [<- | [<- | []]]]]; reflexivity.
  - vm_compute. reflexivity.
  - left. reflexivity.
  - reflexivity.
Defined.

Lemma nan_event_never_written_witness :
  is_nan nan = true /\
  ~ In {| geometry := Value {| coordinates := Value [nan; 2%float] |};
          payload := "us7000e"%string |}
       [ {| geometry := Value {| coordinates := Value [2; 2; 10]%float |};
            payload := "us7000a"%string |} ].
Proof.
  split; [reflexivity|].
  refine (nan_event_never_written string
            ([[square FloatArith 0%float 4%float]]
               : PolygonSet FloatArith)
            ({| geometry := Value {| coordinates := Value [nan; 2%float] |};
                payload := "us7000e"%string |} :: sample_features)
            {| metadata := {| count := 1; bboxCount := 5 |};
               features := _ |} _ nan 2%float [] _ _ _).
  - vm_compute. reflexivity.
  - reflexivity.
  - left. reflexivity.
Defined.

(** ** Polygons and holes as sets *)

Section SetLaws.

Variable N : Arith.
Hypothesis Hsub : sub_zero_law N.





Lemma point_in_polygon_fewer_holes (x y : N) (exterior : Ring N)
  (holes holes' : list (Ring N)) :
  incl holes holes' ->
  point_in_polygon N x y (exterior :: holes') = Ok true ->
  point_in_polygon N x y (exterior :: holes) = Ok true.
Proof.
  intros Hincl. rewrite !(point_in_polygon_value N Hsub). cbn [polygon_rule].
  destruct (negb (returns_true (point_in_ring N x y exterior)));
    [discriminate|].
  destruct (existsb _ holes') eqn:E'; [discriminate|]. intros _.
  destruct (existsb _ holes) eqn:E; [|reflexivity].
  apply existsb_exists in E. destruct E as (hole & Hin & Hhole).
  assert (existsb (fun hole => returns_true (point_in_ring N x y hole)) holes'
          = true) as E''
    by (apply existsb_exists; exists hole; split; [apply Hincl|]; assumption).
  rewrite E'' in E'. discriminate.
Qed.

Lemma point_in_polygon_same_holes (x y : N) (exterior : Ring N)
  (holes holes' : list (Ring N)) :
  incl holes holes' -> incl holes' holes ->
  point_in_polygon N x y (exterior :: holes) =
    point_in_polygon N x y (exterior :: holes').
Proof.
  intros H1 H2.
  pose proof (point_in_polygon_fewer_holes x y exterior holes holes' H1) as F.
  pose proof (point_in_polygon_fewer_holes x y exterior holes' holes H2) as G.
  rewrite !(point_in_polygon_value N Hsub) in *.
  destruct (polygon_rule N x y (exterior :: holes));
    destruct (polygon_rule N x y (exterior :: holes')); try reflexivity.
  - symmetry. apply G. reflexivity.
  - apply F. reflexivity.
Qed.

End SetLaws.

Lemma filter_idem {A : Type} (f : A -> bool) (l : list A) :
  filter f (filter f l) = filter f l.
Proof.
  induction l as [|a l IH]; [reflexivity|]. cbn [filter].
  destruct (f a) eqn:E; [|exact IH]. cbn [filter]. rewrite E, IH. reflexivity.
Qed.





(** X13: holes only take points away, and count as a set.  A point in a
    polygon stays in it when holes are left out; two polygons with the
    same exterior and the same holes, in whatever order, contain the
    same points. *)
Theorem holes_only_remove :
  forall (x y : float) (exterior : Ring FloatArith)
         (holes holes' : list (Ring FloatArith)),
    incl holes holes' ->
    (point_in_polygon FloatArith x y (exterior :: holes') = Ok true ->
     point_in_polygon FloatArith x y (exterior :: holes) = Ok true) /\
    (incl holes' holes ->
     point_in_polygon FloatArith x y (exterior :: holes) =
       point_in_polygon FloatArith x y (exterior :: holes')).
Proof.
  intros x y exterior holes holes' Hincl. split.
  - exact (point_in_polygon_fewer_holes FloatArith Float_sub_zero_law
             x y exterior holes holes' Hincl).
  - exact (point_in_polygon_same_holes FloatArith Float_sub_zero_law
             x y exterior holes holes' Hincl).
Qed.

Lemma holes_only_remove_witness :
  incl ([] : list (Ring FloatArith)) [square FloatArith 4%float 6%float] /\
  (point_in_polygon FloatArith 1%float 1%float square_with_hole = Ok true ->
   point_in_polygon FloatArith 1%float 1%float
     [square FloatArith 0%float 10%float] = Ok true).
Proof.
  assert (H : incl ([] : list (Ring FloatArith))
                [square FloatArith 4%float 6%float])
    by (intros r []).
  split; [exact H|].
  exact (proj1 (holes_only_remove 1%float 1%float
                  (square FloatArith 0%float 10%float) []
                  [square FloatArith 4%float 6%float] H)).
Defined.

(** ** The filter over pages and over its own output *)


(** X15: the output is a fixed point of the filter.  Run on the events
    it has written, with the same polygons, the filter writes them all
    again, in the same order. *)
Theorem filter_pipeline_idempotent :
  forall (Payload : Type) (polygons : PolygonSet FloatArith)
         (all_features : list (Feature FloatArith Payload))
         (out : OutData FloatArith Payload),
    filter_pipeline FloatArith Payload polygons all_features = Ok out ->
    filter_pipeline FloatArith Payload polygons (features out) =
      Ok {| metadata := {| count := count (metadata out);
                           bboxCount := count (metadata out) |};
            features := features out |}.
Proof.
  intros Payload polygons all_features out.
  rewrite !(filter_pipeline_value FloatArith Payload Float_sub_zero_law).
  intros H. injection H as <-. cbn [metadata count features].
  rewrite filter_idem. reflexivity.
Qed.

Lemma filter_pipeline_idempotent_witness :
  filter_pipeline FloatArith string disjoint_squares
    [ {| geometry := Value {| coordinates := Value [2; 2; 10]%float |};
         payload := "us7000a"%string |} ] =
    Ok {| metadata := {| count := 1; bboxCount := 1 |};
          features :=
            [ {| geometry := Value {| coordinates := Value [2; 2; 10]%float |};
                 payload := "us7000a"%string |} ] |}.
Proof.
  refine (filter_pipeline_idempotent string disjoint_squares sample_features
            {| metadata := {| count := 1; bboxCount := 4 |};
               features :=
                 [ {| geometry :=
                        Value {| coordinates := Value [2; 2; 10]%float |};
                      payload := "us7000a"%string |} ] |} _).
  vm_compute. reflexivity.
Defined.

(** ** The bounding box in binary64 *)

(** X16: the bounding box of a boundary without NaN is well formed: its
    lower bounds are at most its upper bounds, and every vertex lies
    between them, in longitude and in latitude. *)
Theorem bounding_box_well_formed :
  forall (polygons : PolygonSet FloatArith) (bbox : BBox FloatArith),
    bounding_box FloatArith polygons = Ok bbox ->
    (forall pt, In pt (all_pts FloatArith polygons) ->
       is_nan (fst pt) = false /\ is_nan (snd pt) = false) ->
    PrimFloat.leb (min_lon bbox) (max_lon bbox) = true /\
    PrimFloat.leb (min_lat bbox) (max_lat bbox) = true /\
    (forall pt, In pt (all_pts FloatArith polygons) ->
       PrimFloat.leb (min_lon bbox) (fst pt) = true /\
       PrimFloat.leb (fst pt) (max_lon bbox) = true /\
       PrimFloat.leb (min_lat bbox) (snd pt) = true /\
       PrimFloat.leb (snd pt) (max_lat bbox) = true).
Proof.
  intros polygons bbox Hbox Hnan.
  destruct (bounding_box_latitudes polygons bbox Hbox)
    as ([Iymin Lymin] & [Iymax Lymax] & [Ixmin Lxmin] & [Ixmax Lxmax]).
  simpl in Lymin, Lymax, Lxmin, Lxmax.
  assert (Nx : forall v, In v (map fst (all_pts FloatArith polygons)) ->
                         is_nan v = false).
  { intros v Hv. apply in_map_iff in Hv. destruct Hv as (q & <- & Hq).
    exact (proj1 (Hnan q Hq)). }
  assert (Ny : forall v, In v (map snd (all_pts FloatArith polygons)) ->
                         is_nan v = false).
  { intros v Hv. apply in_map_iff in Hv. destruct Hv as (q & <- & Hq).
    exact (proj2 (Hnan q Hq)). }
  assert (Xlo : forall v, In v (map fst (all_pts FloatArith polygons)) ->
                          PrimFloat.leb (min_lon bbox) v = true).
  { intros v Hv. apply float_leb_of_not_ltb; auto. }
  assert (Xhi : forall v, In v (map fst (all_pts FloatArith polygons)) ->
                          PrimFloat.leb v (max_lon bbox) = true).
  { intros v Hv. apply float_leb_of_not_ltb; auto. }
  assert (Ylo : forall v, In v (map snd (all_pts FloatArith polygons)) ->
                          PrimFloat.leb (min_lat bbox) v = true).
  { intros v Hv. apply float_leb_of_not_ltb; auto. }
  assert (Yhi : forall v, In v (map snd (all_pts FloatArith polygons)) ->
                          PrimFloat.leb v (max_lat bbox) = true).
  { intros v Hv. apply float_leb_of_not_ltb; auto. }
  split; [exact (Xhi _ Ixmin)|]. split; [exact (Yhi _ Iymin)|].
  intros pt Hpt.
  pose proof (in_map fst _ _ Hpt) as Hx. pose proof (in_map snd _ _ Hpt) as Hy.
  auto.
Qed.

Lemma bounding_box_well_formed_witness :
  bounding_box FloatArith disjoint_squares
    = Ok {| min_lon := 0%float; min_lat := 0%float;
            max_lon := 14%float; max_lat := 14%float |} /\
  PrimFloat.leb 0%float 14%float = true.
Proof.
  assert (Hbox : bounding_box FloatArith disjoint_squares
                 = Ok {| min_lon := 0%float; min_lat := 0%float;
                         max_lon := 14%float; max_lat := 14%float |})
    by (vm_compute; reflexivity).
  split; [exact Hbox|].
  refine (proj1 (bounding_box_well_formed disjoint_squares _ Hbox _)).
  intros pt [<- | [<- | [<- | [<- | [<- | [<- | [<- | [<- | []]]]]]]]];
    split; reflexivity.
Defined.

(** X17: a NaN in the first vertex takes the bounding box with it.  When
    the longitude of the first vertex of the boundary is NaN, both
    longitude bounds are that NaN, whatever the other vertices are; the
    same holds of the latitude. *)
Theorem bounding_box_nan_first :
  forall (polygons : PolygonSet FloatArith) (bbox : BBox FloatArith)
         (pt : Coordinate FloatArith) (rest : list (Coordinate FloatArith)),
    bounding_box FloatArith polygons = Ok bbox ->
    all_pts FloatArith polygons = pt :: rest ->
    (is_nan (fst pt) = true ->
     min_lon bbox = fst pt /\ max_lon bbox = fst pt) /\
    (is_nan (snd pt) = true ->
     min_lat bbox = snd pt /\ max_lat bbox = snd pt).
Proof.
  intros polygons bbox pt rest Hbox Hpts.
  assert (Hloop : forall (op : float -> float -> bool) (best : float)
                         (items : list float),
             (forall v, op v best = false) ->
             min_max_loop FloatArith op best items = best).
  { intros op best items Hop. induction items as [|v items IH];
      [reflexivity|].
    cbn [min_max_loop]. rewrite Hop. exact IH. }
  unfold bounding_box, py_min, py_max, min_max in Hbox.
  rewrite Hpts in Hbox. cbn [map bind] in Hbox. injection Hbox as <-.
  cbn [min_lon max_lon min_lat max_lat]. split; intros Hnan; split;
    apply Hloop; intros v; simpl;
    first [apply float_nan_ltb_r; exact Hnan
          | apply float_nan_ltb_l; exact Hnan].
Qed.

Lemma bounding_box_nan_first_witness :
  all_pts FloatArith [[[(nan, 1%float); (3%float, 2%float)]]]
    = [(nan, 1%float); (3%float, 2%float)] /\
  is_nan nan = true /\
  min_lon {| min_lon := nan; min_lat := 1%float;
             max_lon := nan; max_lat := 2%float |} = nan /\
  max_lon {| min_lon := nan; min_lat := 1%float;
             max_lon := nan; max_lat := 2%float |} = nan.
Proof.
  split; [reflexivity|]. split; [reflexivity|].
  refine (proj1 (bounding_box_nan_first
                   ([[[(nan, 1%float); (3%float, 2%float)]]]
                      : PolygonSet FloatArith)
                   {| min_lon := nan; min_lat := 1%float;
                      max_lon := nan; max_lat := 2%float |}
                   (nan, 1%float) [(3%float, 2%float)] _ _) _).
  - vm_compute. reflexivity.
  - reflexivity.
  - reflexivity.
Defined.

(** * main as a whole, on the decoded JSON *)

Lemma for_each_ext {A S : Type} (body body' : S -> A -> result S)
  (items : list A) :
  (forall s a, In a items -> body s a = body' s a) ->
  forall s, for_each body items s = for_each body' items s.
Proof.
  induction items as [|a items IH]; intros H s; simpl; [reflexivity|].
  rewrite H by (left; reflexivity).
  destruct (body' s a); simpl; [|reflexivity].
  apply IH. intros s' a' Hin. apply H. right; exact Hin.
Qed.

(** A loop raises what its body raises. *)
Lemma for_each_raises {A S : Type} (body : S -> A -> result S)
  (P : exn -> Prop) (items : list A) :
  (forall s a e, In a items -> body s a = Raise e -> P e) ->
  forall s e, for_each body items s = Raise e -> P e.
Proof.
  induction items as [|a items IH]; intros H s e; simpl; [discriminate|].
  destruct (body s a) as [s'|e'] eqn:E; simpl.
  - apply IH. intros s0 a0 e0 Hin. apply H. right; exact Hin.
  - intros Heq. injection Heq as <-.
    apply (H s a e'); [left; reflexivity | exact E].
Qed.

Section DecodedBoundary.

Variable N : Arith.

Lemma min_max_raises (op : N -> N -> bool) (items : list N) (e : exn) :
  min_max N op items = Raise e -> e = ValueError.
Proof.
  destruct items; simpl; intros H; [injection H as <-; reflexivity|].
  discriminate.
Qed.

(** ** Pairs: the decoded functions are the typed ones *)

Lemma unpack_encode (ring : Ring N) (i : nat) :
  Json.unpack N (Json.encode_ring N ring) i =
    match nth_error ring i with
    | Some v => Ok v
    | None => Raise IndexError
    end.
Proof.
  unfold Json.unpack, Json.encode_ring. rewrite nth_error_map.
  unfold Ring, Coordinate in *.
  destruct (nth_error ring i) as [[a b]|]; reflexivity.
Qed.

Lemma ring_step_encode (x y : N) (ring : Ring N) (n : nat) (inside : bool)
  (i : nat) :
  Json.ring_step N x y (Json.encode_ring N ring) n inside i =
    ring_step N x y ring n inside i.
Proof.
  unfold Json.ring_step, ring_step. rewrite !unpack_encode.
  destruct (nth_error ring i) as [[x1 y1]|]; simpl; [|reflexivity].
  destruct (nth_error ring ((i + 1) mod n)) as [[x2 y2]|]; reflexivity.
Qed.

Lemma point_in_ring_encode (x y : N) (ring : Ring N) :
  Json.point_in_ring N x y (Json.encode_ring N ring) =
    point_in_ring N x y ring.
Proof.
  unfold Json.point_in_ring, point_in_ring.
  assert (Hlen : length (Json.encode_ring N ring) = length ring)
    by apply length_map.
  rewrite Hlen. destruct (length ring <? 3); [reflexivity|].
  apply for_each_ext. intros s i _. apply ring_step_encode.
Qed.

Lemma holes_loop_encode (x y : N) (holes : list (Ring N)) :
  Json.holes_loop N x y (map (Json.encode_ring N) holes) =
    holes_loop N x y holes.
Proof.
  induction holes as [|hole holes IH]; [reflexivity|].
  cbn [map Json.holes_loop holes_loop]. rewrite point_in_ring_encode.
  destruct (point_in_ring N x y hole) as [[|]|]; simpl;
    [reflexivity | exact IH | reflexivity].
Qed.

Lemma point_in_polygon_encode (x y : N) (poly : Polygon N) :
  Json.point_in_polygon N x y (map (Json.encode_ring N) poly) =
    point_in_polygon N x y poly.
Proof.
  destruct poly as [|exterior holes]; [reflexivity|].
  cbn [map Json.point_in_polygon point_in_polygon].
  rewrite point_in_ring_encode.
  destruct (point_in_ring N x y exterior) as [[|]|]; simpl;
    [apply holes_loop_encode | reflexivity | reflexivity].
Qed.

Lemma point_in_multipolygon_encode (x y : N) (polygons : PolygonSet N) :
  Json.point_in_multipolygon N x y (Json.encode N polygons) =
    point_in_multipolygon N x y polygons.
Proof.
  induction polygons as [|poly polygons IH]; [reflexivity|].
  unfold Json.encode in *.
  cbn [map Json.point_in_multipolygon point_in_multipolygon].
  rewrite point_in_polygon_encode.
  destruct (point_in_polygon N x y poly) as [[|]|]; simpl;
    [reflexivity | exact IH | reflexivity].
Qed.

Lemma encode_decode_ring (ring : Json.Ring N) :
  Forall (fun pos => length pos = 2) ring ->
  Json.encode_ring N (Json.decode_ring N ring) = ring.
Proof.
  induction ring as [|pos ring IH]; intros H; [reflexivity|].
  inversion H as [|? ? Hpos Hring]; subst.
  destruct pos as [|a [|b [|c pos]]]; try discriminate.
  unfold Json.encode_ring, Json.decode_ring in *. simpl. f_equal.
  apply IH. exact Hring.
Qed.

Lemma encode_decode (polygons : Json.PolygonSet N) :
  Json.pairs_only N polygons ->
  Json.encode N (Json.decode N polygons) = polygons.
Proof.
  intros H. unfold Json.encode, Json.decode. rewrite map_map.
  rewrite <- (map_id polygons) at 2. apply map_ext_in. intros poly Hpoly.
  rewrite map_map. rewrite <- (map_id poly) at 2. apply map_ext_in.
  intros ring Hring. apply encode_decode_ring. apply Forall_forall.
  intros pos Hpos. exact (H poly ring pos Hpoly Hring Hpos).
Qed.

Lemma point_in_multipolygon_decode (x y : N) (polygons : Json.PolygonSet N) :
  Json.pairs_only N polygons ->
  Json.point_in_multipolygon N x y polygons =
    point_in_multipolygon N x y (Json.decode N polygons).
Proof.
  intros H. rewrite <- (encode_decode polygons H) at 1.
  apply point_in_multipolygon_encode.
Qed.

(** ** The boundary: what it raises *)

Lemma load_feature_raises (polygons : Json.PolygonSet N)
  (feat : Json.AdminFeature N) (e : exn) :
  Json.load_feature N polygons feat = Raise e -> e = AttributeError.
Proof.
  unfold Json.load_feature.
  destruct (Json.admin_geometry feat) as [| |[coords|coords|]];
    intros H; try discriminate.
  injection H as <-. reflexivity.
Qed.

Lemma items_raises (k : nat) (pts : list (Json.Position N)) (e : exn) :
  Json.items N k pts = Raise e -> e = IndexError.
Proof.
  induction pts as [|pt pts IH]; cbn [Json.items]; [discriminate|].
  unfold Json.item. destruct (nth_error pt k); cbn [bind].
  - destruct (Json.items N k pts); cbn [bind]; [discriminate|].
    intros H. injection H as <-. apply IH. reflexivity.
  - intros H. injection H as <-. reflexivity.
Qed.

Lemma json_bounding_box_raises (polygons : Json.PolygonSet N) (e : exn) :
  Json.bounding_box N polygons = Raise e ->
  e = ValueError \/ e = IndexError.
Proof.
  unfold Json.bounding_box, py_min, py_max.
  set (pts := Json.all_pts N polygons).
  destruct (Json.items N 0 pts) as [xs|e0] eqn:Ex; cbn [bind];
    [|intros H; injection H as <-; right; exact (items_raises _ _ _ Ex)].
  destruct (min_max N (lt N) xs) eqn:E1; cbn [bind];
    [|intros H; injection H as <-; left; exact (min_max_raises _ _ _ E1)].
  destruct (min_max N (gt N) xs) eqn:E2; cbn [bind];
    [|intros H; injection H as <-; left; exact (min_max_raises _ _ _ E2)].
  destruct (Json.items N 1 pts) as [ys|e1] eqn:Ey; cbn [bind];
    [|intros H; injection H as <-; right; exact (items_raises _ _ _ Ey)].
  destruct (min_max N (lt N) ys) eqn:E3; cbn [bind];
    [|intros H; injection H as <-; left; exact (min_max_raises _ _ _ E3)].
  destruct (min_max N (gt N) ys) eqn:E4; cbn [bind];
    [discriminate
    |intros H; injection H as <-; left; exact (min_max_raises _ _ _ E4)].
Qed.

Lemma json_load_boundary_raises (data : Json.AdminDoc N) (e : exn) :
  Json.load_boundary N data = Raise e ->
  e = AttributeError \/ e = SystemExit no_polygon_msg \/
  e = ValueError \/ e = IndexError.
Proof.
  unfold Json.load_boundary, Json.load_polygons.
  destruct (for_each (Json.load_feature N) (Json.admin_features data) [])
    as [polygons|e0] eqn:Eload; cbn [bind].
  - destruct polygons as [|poly polygons]; cbn [bind].
    + intros H. injection H as <-. right; left; reflexivity.
    + destruct (Json.bounding_box N (poly :: polygons)) as [bbox|e1] eqn:Ebox;
        cbn [bind]; [discriminate|].
      intros H. injection H as <-.
      destruct (json_bounding_box_raises _ _ Ebox) as [-> | ->]; auto.
  - intros H. injection H as <-. left.
    apply (for_each_raises (Json.load_feature N) (fun e => e = AttributeError)
             (Json.admin_features data)
             (fun s a e _ => load_feature_raises s a e) [] e0 Eload).
Qed.

(** ** The containment tests: what they raise *)

Hypothesis Hsub : sub_zero_law N.

Lemma json_ring_step_raises (x y : N) (ring : Json.Ring N) (inside : bool)
  (i : nat) (e : exn) :
  i < length ring ->
  Json.ring_step N x y ring (length ring) inside i = Raise e ->
  e = ValueError.
Proof.
  intros Hi. unfold Json.ring_step, Json.unpack.
  destruct (nth_error ring i) as [p1|] eqn:E1;
    [|apply nth_error_None in E1; lia].
  destruct p1 as [|x1 [|y1 [|z1 p1]]]; cbn [bind];
    try (intros H; injection H as <-; reflexivity).
  assert (Hj : (i + 1) mod length ring < length ring)
    by (apply Nat.mod_upper_bound; lia).
  destruct (nth_error ring ((i + 1) mod length ring)) as [p2|] eqn:E2;
    [|apply nth_error_None in E2; lia].
  destruct p2 as [|x2 [|y2 [|z2 p2]]]; cbn [bind];
    try (intros H; injection H as <-; reflexivity).
  destruct (negb (Bool.eqb (gt N y1 y) (gt N y2 y))) eqn:S; [|discriminate].
  unfold truediv.
  rewrite (straddles_divisor N y x1 y1 x2 y2 Hsub S). cbn [bind].
  destruct (lt N x _); discriminate.
Qed.

Lemma json_point_in_ring_raises (x y : N) (ring : Json.Ring N) (e : exn) :
  Json.point_in_ring N x y ring = Raise e -> e = ValueError.
Proof.
  unfold Json.point_in_ring. destruct (length ring <? 3); [discriminate|].
  apply (for_each_raises _ (fun e => e = ValueError)).
  intros s i e' Hin. apply in_seq in Hin.
  apply json_ring_step_raises. lia.
Qed.

Lemma json_holes_loop_raises (x y : N) (holes : list (Json.Ring N))
  (e : exn) :
  Json.holes_loop N x y holes = Raise e -> e = ValueError.
Proof.
  induction holes as [|hole holes IH]; cbn [Json.holes_loop]; [discriminate|].
  destruct (Json.point_in_ring N x y hole) as [[|]|e'] eqn:E; cbn [bind].
  - discriminate.
  - exact IH.
  - intros H. injection H as <-. exact (json_point_in_ring_raises _ _ _ _ E).
Qed.

Lemma json_point_in_polygon_raises (x y : N) (poly : Json.Polygon N)
  (e : exn) :
  Json.point_in_polygon N x y poly = Raise e -> e = ValueError.
Proof.
  destruct poly as [|exterior holes]; cbn [Json.point_in_polygon];
    [discriminate|].
  destruct (Json.point_in_ring N x y exterior) as [[|]|e'] eqn:E;
    cbn [bind negb].
  - apply json_holes_loop_raises.
  - discriminate.
  - intros H. injection H as <-. exact (json_point_in_ring_raises _ _ _ _ E).
Qed.

Lemma json_point_in_multipolygon_raises (x y : N)
  (polygons : Json.PolygonSet N) (e : exn) :
  Json.point_in_multipolygon N x y polygons = Raise e -> e = ValueError.
Proof.
  induction polygons as [|poly polygons IH];
    cbn [Json.point_in_multipolygon]; [discriminate|].
  destruct (Json.point_in_polygon N x y poly) as [[|]|e'] eqn:E; cbn [bind].
  - discriminate.
  - exact IH.
  - intros H. injection H as <-.
    exact (json_point_in_polygon_raises _ _ _ _ E).
Qed.

Variable Payload : Type.

Local Abbreviation Event := (Feature N Payload).

Lemma json_filter_pipeline_raises (polygons : Json.PolygonSet N)
  (all_features : list Event) (e : exn) :
  Json.filter_pipeline N Payload polygons all_features = Raise e ->
  e = ValueError.
Proof.
  unfold Json.filter_pipeline.
  destruct (for_each (Json.filter_step N Payload polygons) all_features [])
    as [filtered|e'] eqn:E; cbn [bind]; [discriminate|].
  intros H. injection H as <-.
  apply (for_each_raises _ (fun e => e = ValueError) all_features) in E;
    [exact E|].
  intros filtered f e0 _. unfold Json.filter_step.
  destruct (feature_coords N Payload f) as [|c0 [|c1 rest]];
    try discriminate.
  cbn [length Nat.leb nth_error].
  destruct (Json.point_in_multipolygon N c0 c1 polygons) as [[|]|e1] eqn:Ein;
    cbn [bind]; try discriminate.
  intros H. injection H as <-.
  exact (json_point_in_multipolygon_raises _ _ _ _ Ein).
Qed.

(** ** The filter on a boundary of pairs *)

Lemma qualifies_decode (polygons : Json.PolygonSet N) (f : Event) :
  Json.pairs_only N polygons ->
  kept N Payload (Json.decode N polygons) f =
    Json.qualifies N Payload polygons f.
Proof.
  intros H. rewrite kept_qualifies. unfold qualifies, Json.qualifies.
  destruct (geometry f) as [| |g]; try reflexivity.
  destruct (coordinates g) as [| |[|c0 [|c1 rest]]]; try reflexivity.
  rewrite (point_in_multipolygon_decode c0 c1 polygons H). reflexivity.
Qed.

Lemma json_filter_pipeline_value (polygons : Json.PolygonSet N)
  (all_features : list Event) :
  Json.pairs_only N polygons ->
  Json.filter_pipeline N Payload polygons all_features =
    Ok {| metadata :=
            {| count :=
                 length (filter (Json.qualifies N Payload polygons)
                                all_features);
               bboxCount := length all_features |};
          features :=
            filter (Json.qualifies N Payload polygons) all_features |}.
Proof.
  intros H.
  rewrite <- (filter_ext _ _ (fun f => qualifies_decode polygons f H)).
  rewrite <- (filter_pipeline_value N Payload Hsub).
  unfold Json.filter_pipeline, filter_pipeline.
  rewrite (for_each_ext (Json.filter_step N Payload polygons)
             (filter_step N Payload (Json.decode N polygons)));
    [reflexivity|].
  intros filtered f _. unfold Json.filter_step, filter_step.
  destruct (2 <=? length (feature_coords N Payload f)); [|reflexivity].
  destruct (nth_error (feature_coords N Payload f) 0) as [c0|];
    [|reflexivity].
  destruct (nth_error (feature_coords N Payload f) 1) as [c1|];
    [|reflexivity].
  rewrite (point_in_multipolygon_decode c0 c1 polygons H). reflexivity.
Qed.

(** ** The fetch loop on decoded answers *)

Lemma json_fetch_loop_ends (page : nat -> field (list Event)) (fuel : nat) :
  forall (offset : nat) (acc : list Event) (req requested : list nat)
         (r : result (list Event)),
    Json.fetch_loop N Payload fuel page offset acc req = Some (requested, r) ->
    (exists later, requested = req ++ offset :: later) /\
    (forall e, r = Raise e -> e = TypeError).
Proof.
  induction fuel as [|fuel IH]; intros offset acc req requested r;
    cbn [Json.fetch_loop]; [discriminate|].
  assert (Hstep : forall batch,
             (if length batch <? limit
              then Some (req ++ [offset], Ok (acc ++ batch))
              else Json.fetch_loop N Payload fuel page (offset + limit)
                     (acc ++ batch) (req ++ [offset])) = Some (requested, r) ->
             (exists later, requested = req ++ offset :: later) /\
             (forall e, r = Raise e -> e = TypeError)).
  { intros batch. destruct (length batch <? limit).
    - intros H. injection H as <- <-. split; [exists []; reflexivity|].
      discriminate.
    - intros H. apply IH in H. destruct H as [[later ->] Hr].
      split; [|exact Hr].
      exists ((offset + limit) :: later). rewrite <- app_assoc. reflexivity. }
  destruct (page offset) as [| |batch].
  - apply Hstep.
  - intros H. injection H as <- <-. split; [exists []; reflexivity|].
    intros e He. injection He as <-. reflexivity.
  - apply Hstep.
Qed.

Lemma json_fetch_loop_value (page : nat -> field (list Event))
  (page' : nat -> option (list Event)) (fuel : nat) :
  (forall offset, 1 <= offset ->
     page offset = match page' offset with
                   | Some batch => Value batch
                   | None => Absent
                   end) ->
  forall (offset : nat) (acc : list Event) (req : list nat),
    1 <= offset ->
    Json.fetch_loop N Payload fuel page offset acc req =
      match fetch_loop N Payload fuel page' offset acc req with
      | Some (all_features, requested) => Some (requested, Ok all_features)
      | None => None
      end.
Proof.
  intros Hpage. induction fuel as [|fuel IH]; intros offset acc req Hoff;
    cbn [Json.fetch_loop fetch_loop]; [reflexivity|].
  rewrite (Hpage offset Hoff).
  destruct (page' offset) as [batch|].
  - destruct (length batch <? limit); [reflexivity|]. apply IH. lia.
  - destruct (length (@nil Event) <? limit); [reflexivity|]. apply IH. lia.
Qed.

End DecodedBoundary.

(** X4: how a run of [main] ends when it fails, for a boundary whose
    features carry a polygon, a multipolygon, another geometry, none or
    [null], whose positions are arrays of floats of any length, and a
    service that answers with a list of records under [features], with
    [null], or without the key.  Before the first request the run can
    fail with [FileNotFoundError], [AttributeError] (a [null] geometry),
    [SystemExit] (no polygon), [ValueError] (no vertex) or [IndexError]
    (a position of fewer than two numbers), and with nothing else; once
    it has made a request it can fail with [TypeError] ([features] is
    [null]) or [ValueError] (a position that is not a pair, met by the
    ray casting), and with nothing else.  The four sample runs end with
    [AttributeError] and [IndexError] before any request, and with
    [ValueError] and [TypeError] after the first. *)
Theorem main_run_failures :
  (forall (Payload : Type) (fuel : nat)
          (admin : option (Json.AdminDoc FloatArith))
          (service : BBox FloatArith -> nat ->
                     field (list (Feature FloatArith Payload)))
          (run : Run FloatArith Payload) (f : Failure),
     Json.main_run FloatArith Payload fuel admin service = Some run ->
     outcome run = Failed f ->
     (requests run = [] /\
      (f = FileNotFoundError \/ f = Raised AttributeError \/
       f = Raised (SystemExit no_polygon_msg) \/
       f = Raised ValueError \/ f = Raised IndexError)) \/
     (requests run <> [] /\
      (f = Raised TypeError \/ f = Raised ValueError))) /\
  Json.main_run FloatArith string 1 (Some boundary_unlocated) sample_service =
    Some {| requests := []; outcome := Failed (Raised AttributeError) |} /\
  Json.main_run FloatArith string 1 (Some boundary_short_position)
    sample_service =
    Some {| requests := []; outcome := Failed (Raised IndexError) |} /\
  Json.main_run FloatArith string 1 (Some boundary_3d) sample_service =
    Some {| requests := [1]; outcome := Failed (Raised ValueError) |} /\
  Json.main_run FloatArith string 1 (Some boundary_2d) null_service =
    Some {| requests := [1]; outcome := Failed (Raised TypeError) |}.
Proof.
  split; [|repeat split; vm_compute; reflexivity].
  intros Payload fuel admin service run f Hrun Hf.
  unfold Json.main_run in Hrun. destruct admin as [data|].
  - destruct (Json.load_boundary FloatArith data) as [[polygons bbox]|e]
      eqn:Hload.
    + right. unfold Json.fetch_all in Hrun.
      destruct (Json.fetch_loop FloatArith Payload fuel (service bbox) 1 [] [])
        as [[requested r]|] eqn:Hfetch; [|discriminate].
      destruct (json_fetch_loop_ends FloatArith Payload _ _ _ _ _ _ _ Hfetch)
        as [[later Hreq] Hr].
      assert (Hne : requested <> []) by (rewrite Hreq; discriminate).
      destruct r as [all_features|e].
      * injection Hrun as <-. cbn [requests outcome] in *.
        split; [exact Hne|]. right.
        destruct (Json.filter_pipeline FloatArith Payload polygons
                    all_features) as [out|e] eqn:Hfilter; [discriminate|].
        injection Hf as <-.
        rewrite (json_filter_pipeline_raises FloatArith Float_sub_zero_law
                   Payload _ _ _ Hfilter).
        reflexivity.
      * injection Hrun as <-. cbn [requests outcome] in *.
        split; [exact Hne|]. left. injection Hf as <-.
        rewrite (Hr e eq_refl). reflexivity.
    + left. injection Hrun as <-. cbn [requests outcome] in *.
      split; [reflexivity|]. injection Hf as <-.
      destruct (json_load_boundary_raises FloatArith data e Hload)
        as [-> | [-> | [-> | ->]]]; auto 6.
  - left. injection Hrun as <-. cbn [requests outcome] in *.
    split; [reflexivity|]. injection Hf as <-. auto.
Qed.

Lemma main_run_failures_witness :
  Json.main_run FloatArith string 1 (Some boundary_3d) sample_service =
    Some {| requests := [1]; outcome := Failed (Raised ValueError) |} /\
  ((@nil nat = [] /\
    (Raised ValueError = FileNotFoundError \/
     Raised ValueError = Raised AttributeError \/
     Raised ValueError = Raised (SystemExit no_polygon_msg) \/
     Raised ValueError = Raised ValueError \/
     Raised ValueError = Raised IndexError)) \/
   ([1] <> [] /\
    (Raised ValueError = Raised TypeError \/
     Raised ValueError = Raised ValueError))).
Proof.
  assert (H : Json.main_run FloatArith string 1 (Some boundary_3d)
                sample_service =
              Some {| requests := [1];
                      outcome := Failed (Raised ValueError) |})
    by (vm_compute; reflexivity).
  split; [exact H|].
  pose proof (proj1 main_run_failures string 1 (Some boundary_3d)
                sample_service _ (Raised ValueError) H eq_refl) as C.
  destruct C as [[C _] | C]; [discriminate C | right; exact C].
Defined.

(** X5: from end to end.  With a boundary that loads and whose positions
    are all pairs, and a service that pages a catalogue, the run ends,
    asks for one page after the other, and writes the records of the
    catalogue whose coordinate array has at least two elements, the
    first two inside the polygon set, in catalogue order, with
    [bboxCount] the size of the catalogue and [count] the number
    written.  On the two squares and the four sample records it makes
    one request and writes the first record. *)
Theorem main_run_catalogue :
  (forall (Payload : Type) (data : Json.AdminDoc FloatArith)
          (polygons : Json.PolygonSet FloatArith) (bbox : BBox FloatArith)
          (events : list (Feature FloatArith Payload))
          (service : BBox FloatArith -> nat ->
                     field (list (Feature FloatArith Payload)))
          (fuel : nat),
     Json.load_boundary FloatArith data = Ok (polygons, bbox) ->
     Json.pairs_only FloatArith polygons ->
     (forall offset, 1 <= offset ->
        service bbox offset =
          Json.catalogue_answer FloatArith Payload events offset) ->
     length events / limit < fuel ->
     Json.main_run FloatArith Payload fuel (Some data) service =
       Some {| requests := request_offsets (S (length events / limit));
               outcome :=
                 Written
                   {| metadata :=
                        {| count :=
                             length (filter (Json.qualifies FloatArith Payload
                                               polygons) events);
                           bboxCount := length events |};
                      features :=
                        filter (Json.qualifies FloatArith Payload polygons)
                               events |} |}) /\
  Json.main_run FloatArith string 1 (Some boundary_2d) sample_service =
    Some {| requests := [1];
            outcome :=
              Written
                {| metadata := {| count := 1; bboxCount := 4 |};
                   features :=
                     [ {| geometry :=
                            Value {| coordinates := Value [2; 2; 10]%float |};
                          payload := "us7000a"%string |} ] |} |}.
Proof.
  split; [|vm_compute; reflexivity].
  intros Payload data polygons bbox events service fuel Hload Hpairs Hpage
         Hfuel.
  unfold Json.main_run, Json.fetch_all. rewrite Hload.
  rewrite (json_fetch_loop_value FloatArith Payload (service bbox)
             (catalogue_page FloatArith Payload events) fuel Hpage 1 [] []
             (le_n 1)).
  rewrite (fetch_loop_catalogue FloatArith Payload events
             (catalogue_page FloatArith Payload events) fuel
             (fun _ _ => eq_refl) Hfuel).
  rewrite (json_filter_pipeline_value FloatArith Float_sub_zero_law Payload
             polygons events Hpairs).
  reflexivity.
Qed.

Lemma main_run_catalogue_witness :
  Json.load_boundary FloatArith boundary_2d =
    Ok (Json.encode FloatArith disjoint_squares,
        {| min_lon := 0%float; max_lon := 14%float;
           min_lat := 0%float; max_lat := 14%float |}) /\
  Json.pairs_only FloatArith (Json.encode FloatArith disjoint_squares) /\
  length sample_features / limit < 1 /\
  Json.main_run FloatArith string 1 (Some boundary_2d) sample_service =
    Some {| requests := request_offsets (S (length sample_features / limit));
            outcome :=
              Written
                {| metadata :=
                     {| count :=
                          length (filter (Json.qualifies FloatArith string
                                            (Json.encode FloatArith
                                               disjoint_squares))
                                         sample_features);
                        bboxCount := length sample_features |};
                   features :=
                     filter (Json.qualifies FloatArith string
                               (Json.encode FloatArith disjoint_squares))
                            sample_features |} |}.
Proof.
  assert (Hload : Json.load_boundary FloatArith boundary_2d =
                  Ok (Json.encode FloatArith disjoint_squares,
                      {| min_lon := 0%float; max_lon := 14%float;
                         min_lat := 0%float; max_lat := 14%float |}))
    by (vm_compute; reflexivity).
  assert (Hpairs : Json.pairs_only FloatArith
                     (Json.encode FloatArith disjoint_squares)).
  { intros poly ring pos Hpoly Hring Hpos.
    destruct Hpoly as [<- | [<- | []]];
      destruct Hring as [<- | []];
      destruct Hpos as [<- | [<- | [<- | [<- | []]]]]; reflexivity. }
  assert (Hfuel : length sample_features / limit < 1)
    by (apply Nat.ltb_lt; vm_compute; reflexivity).
  split; [exact Hload|]. split; [exact Hpairs|]. split; [exact Hfuel|].
  exact (proj1 main_run_catalogue string boundary_2d _ _ sample_features
           sample_service 1 Hload Hpairs (fun _ _ => eq_refl) Hfuel).
Defined.
